(** * cview-widget-views: the widget builder of [src/index.js]

    A shallow embedding of the [BaseWidget] class and of the eleven widget
    classes the module exports, and the properties of chained attribute
    setting and of the serialisation into a definition object.

    Widgets are mutable JavaScript objects: they live in a heap and are
    passed around by reference, so that a child mutated after it was
    attached to a parent is seen by the parent's next [definition], and a
    setter can be said to return the very widget it was called on.
    Attribute names are strings and the children of a widget are an array,
    as the JSDoc of [setProps] and [setViews] has them; arrays and plain
    objects are data and are held by value. Numbers are binary64 floats. *)

From Stdlib Require Import Floats.PrimFloat.
From stdpp Require Import gmap strings list fin_maps.

Set Default Proof Using "Type".
Set Warnings "-register-all".

(** ** Values *)

(** The classes of the module; [BaseWidget] is the only one that is not
    exported. *)
Inductive Class : Set :=
| BaseWidget | Text | Image | Color | Gradient | Divider
| Hstack | Vstack | Zstack | Spacer | Hgrid | Vgrid.

#[global] Instance Class_eq_dec : EqDecision Class.
Proof. solve_decision. Defined.

(** JavaScript values, as far as the builder looks into them: primitives,
    arrays and plain objects (data, held by value), references to widgets
    in the heap, and the function objects found on a widget's prototype
    chain (a method read as a property, never called through the value). *)
Inductive Value : Type :=
| VUndefined
| VNull
| VBool (b : bool)
| VNum (x : float)
| VStr (s : string)
| VArr (elems : list Value)
| VObj (fields : gmap string Value)
| VRef (l : nat)
| VFun (c : Class) (name : string).

(** ToBoolean. *)
Definition truthy (v : Value) : bool :=
  match v with
  | VUndefined | VNull => false
  | VBool b => b
  | VNum x => negb (PrimFloat.eqb x 0%float || PrimFloat.is_nan x)
  | VStr s => negb (String.eqb s "")
  | VArr _ | VObj _ | VRef _ | VFun _ _ => true
  end.

(** A parameter with a default value: [f(x = d)] takes [d] when the
    argument is missing or [undefined]. *)
Definition default_param (d : Value) (x : Value) : Value :=
  match x with
  | VUndefined => d
  | _ => x
  end.

(** ** The attribute store: a JavaScript [Map] with string keys

    A [Map] iterates in insertion order, and [set] on a key that is present
    replaces the value where the key stands. *)
Abbreviation JsMap := (list (string * Value)).

Fixpoint Map_set (name : string) (value : Value) (m : JsMap) : JsMap :=
  match m with
  | [] => [(name, value)]
  | (k, v) :: m' =>
      if String.eqb k name then (k, value) :: m'
      else (k, v) :: Map_set name value m'
  end.

Fixpoint Map_get (name : string) (m : JsMap) : option Value :=
  match m with
  | [] => None
  | (k, v) :: m' => if String.eqb k name then Some v else Map_get name m'
  end.

Definition Map_entries (m : JsMap) : list (string * Value) := m.

Definition Map_keys (m : JsMap) : list string := m.*1.

(** [Object.fromEntries]: the entries are defined on a fresh object one
    after the other, a later entry replacing an earlier one of its key.
    An object is a finite map from names to values: what is read under
    each name is recorded, the order in which the names enumerate is not. *)
Definition Object_fromEntries (entries : list (string * Value))
  : gmap string Value :=
  foldl (λ obj n, <[n.1 := n.2]> obj) ∅ entries.

(** ** Widgets and the heap *)

Record Widget : Type := mkWidget {
  cls : Class;          (* the class the object was constructed from *)
  ordered : Value;
  type : Value;         (* [undefined] until a subclass constructor sets it *)
  _props : JsMap;
  _views : list Value
}.

Abbreviation Heap := (gmap nat Widget).

Definition with_type (t : Value) (w : Widget) : Widget :=
  mkWidget (cls w) (ordered w) t (_props w) (_views w).

Definition with_props (m : JsMap) (w : Widget) : Widget :=
  mkWidget (cls w) (ordered w) (type w) m (_views w).

Definition with_views (arr : list Value) (w : Widget) : Widget :=
  mkWidget (cls w) (ordered w) (type w) (_props w) arr.

(** ** Computations: heap passing, with exceptions *)

Inductive Error : Set := TypeError | RangeError.

Inductive Outcome (A : Type) : Type :=
| Normal (a : A) (h : Heap)
| Throw (e : Error) (h : Heap).
Arguments Normal {A} a h.
Arguments Throw {A} e h.

Definition Js (A : Type) : Type := Heap → Outcome A.

#[global] Instance Js_ret : MRet Js := λ A a h, Normal a h.

#[global] Instance Js_bind : MBind Js := λ A B f m h,
  match m h with
  | Normal a h' => f a h'
  | Throw e h' => Throw e h'
  end.

Definition throw {A} (e : Error) : Js A := λ h, Throw e h.

(** The heap an outcome leaves behind. *)
Definition heap_of {A} (o : Outcome A) : Heap :=
  match o with
  | Normal _ h => h
  | Throw _ h => h
  end.

Definition alloc (w : Widget) : Js nat := λ h,
  let l := fresh (dom h) in Normal l (<[l := w]> h).

Definition read (this : nat) : Js Widget := λ h,
  match h !! this with
  | Some w => Normal w h
  | None => Throw TypeError h
  end.

Definition modify (this : nat) (f : Widget → Widget) : Js () := λ h,
  match h !! this with
  | Some w => Normal () (<[this := f w]> h)
  | None => Throw TypeError h
  end.

(** The methods each class body declares. *)
Definition own_methods (c : Class) : list string :=
  match c with
  | BaseWidget =>
      ["setViews"; "setProps"; "_setProps"; "_getDefinition"; "frame";
       "position"; "offset"; "padding"; "layoutPriority"; "cornerRadius";
       "border"; "clipped"; "opacity"; "blur"; "color"; "background";
       "link"; "widgetURL"]
  | Text =>
      ["text"; "date"; "style"; "startDate"; "endDate"; "bold"; "font";
       "lineLimit"; "minimumScaleFactor"]
  | Image =>
      ["image"; "symbol"; "path"; "uri"; "resizable"; "scaledToFill";
       "scaledToFit"; "accessibilityHidden"; "accessibilityLabel";
       "accessibilityHint"]
  | Color => ["color"; "light"; "dark"]
  | Gradient => ["startPoint"; "endPoint"; "locations"; "colors"]
  | Divider => []
  | Hstack | Vstack => ["alignment"; "spacing"]
  | Zstack => ["alignment"]
  | Spacer => ["minLength"]
  | Hgrid => ["rows"; "spacing"; "alignment"]
  | Vgrid => ["columns"; "spacing"; "alignment"]
  end.

(** Method lookup along the prototype chain: the class, then [BaseWidget]. *)
Definition method_owner (c : Class) (k : string) : option Class :=
  if bool_decide (k ∈ own_methods c) then Some c
  else if bool_decide (k ∈ own_methods BaseWidget) then Some BaseWidget
  else None.

(** Reading one name out of a destructured parameter [{k, ...}]. The names
    the module destructures (in [frame] and [border]) are no own property
    and no accessor of a widget; on a widget they can only reach a method. *)
Definition param_field (h : Heap) (param : Value) (k : string) : Value :=
  match param with
  | VObj fields => default VUndefined (fields !! k)
  | VRef l =>
      match h !! l with
      | Some w =>
          match method_owner (cls w) k with
          | Some c => VFun c k
          | None => VUndefined
          end
      | None => VUndefined
      end
  | _ => VUndefined
  end.

(** Destructuring [undefined] or [null] throws. *)
Definition destructurable (param : Value) : bool :=
  match param with
  | VUndefined | VNull => false
  | _ => true
  end.

(** ** class BaseWidget *)

Module BaseWidget.

(** [constructor(ordered = false)], run on a fresh object of class [c]. *)
Definition constructor (c : Class) (ordered : Value) : Js nat :=
  let ordered := default_param (VBool false) ordered in
  alloc (mkWidget c ordered VUndefined [] []).

(** [get views()] *)
Definition views (w : Widget) : list Value := _views w.

(** [set views(arr)] *)
Definition set_views (this : nat) (arr : list Value) : Js () :=
  modify this (with_views arr).

(** [get props()] *)
Definition props (w : Widget) : Value :=
  VObj (Object_fromEntries (Map_entries (_props w))).

(** [get modifiers()] *)
Definition modifiers (w : Widget) : Value :=
  VArr (map (λ n, VObj (Object_fromEntries [n])) (Map_entries (_props w))).

(** [_getDefinition(view)]. The JavaScript recursion follows the child
    references; [fuel] bounds its depth, and [None] stands for the call
    stack running out (a [RangeError]), as it does on a widget that is
    its own descendant. *)
Fixpoint _getDefinition (fuel : nat) (h : Heap) (view : nat) : option Value :=
  match fuel with
  | O => None
  | S fuel =>
      w ← h !! view;
      let definition : gmap string Value := ∅ in
      let definition := <["type" := type w]> definition in
      let definition :=
        if truthy (ordered w)
        then <["modifiers" := modifiers w]> definition
        else <["props" := props w]> definition in
      definition ←
        (if bool_decide (length (views w) ≠ 0)
         then
           vs ← mapM (λ n, match n with
                           | VRef l => _getDefinition fuel h l
                           | _ => Some n
                           end) (views w);
           Some (<["views" := VArr vs]> definition)
         else Some definition);
      Some (VObj definition)
  end.

(** [get definition()] *)
Definition definition (fuel : nat) (this : nat) : Js Value := λ h,
  match _getDefinition fuel h this with
  | Some d => Normal d h
  | None => Throw RangeError h
  end.

Definition _setProps (this : nat) (name : string) (value : Value) : Js Value :=
  modify this (λ w, with_props (Map_set name value (_props w)) w);;
  mret VUndefined.

Definition setViews (this : nat) (arr : list Value) : Js Value :=
  set_views this arr;;
  mret (VRef this).

Definition setProps (this : nat) (name : string) (value : Value) : Js Value :=
  _setProps this name value;;
  mret (VRef this).

Definition frame (this : nat) (param : Value) : Js Value :=
  let param := default_param (VObj ∅) param in
  if destructurable param then
    h ← (λ h, Normal h h);
    let get := param_field h param in
    _setProps this "frame"
      (VObj (<["maxHeight" := get "maxHeight"]>
            (<["idealHeight" := get "idealHeight"]>
            (<["minHeight" := get "minHeight"]>
            (<["maxWidth" := get "maxWidth"]>
            (<["idealWidth" := get "idealWidth"]>
            (<["minWidth" := get "minWidth"]>
            (<["alignment" := get "alignment"]>
            (<["height" := get "height"]>
            (<["width" := get "width"]> ∅))))))))));;
    mret (VRef this)
  else throw TypeError.

Definition position (this : nat) (point : Value) : Js Value :=
  _setProps this "position" point;;
  mret (VRef this).

Definition offset (this : nat) (point : Value) : Js Value :=
  _setProps this "offset" point;;
  mret (VRef this).

Definition padding (this : nat) (param : Value) : Js Value :=
  _setProps this "padding" param;;
  mret (VRef this).

Definition layoutPriority (this : nat) (num : Value) : Js Value :=
  _setProps this "layoutPriority" num;;
  mret VUndefined.

Definition cornerRadius (this : nat) (param : Value) : Js Value :=
  _setProps this "cornerRadius" param;;
  mret (VRef this).

Definition border (this : nat) (param : Value) : Js Value :=
  if destructurable param then
    h ← (λ h, Normal h h);
    let get := param_field h param in
    _setProps this "border"
      (VObj (<["width" := get "width"]> (<["color" := get "color"]> ∅)));;
    mret (VRef this)
  else throw TypeError.

Definition clipped (this : nat) (bool antialiased : Value) : Js Value :=
  let bool := default_param (VBool true) bool in
  (if negb (truthy antialiased) then _setProps this "clipped" bool
   else _setProps this "clipped" (VObj {["antialiased" := VBool true]}));;
  mret (VRef this).

Definition opacity (this : nat) (num : Value) : Js Value :=
  _setProps this "opacity" num;;
  mret (VRef this).

Definition blur (this : nat) (num : Value) : Js Value :=
  _setProps this "blur" num;;
  mret (VRef this).

Definition color (this : nat) (color : Value) : Js Value :=
  _setProps this "color" color;;
  mret (VRef this).

Definition background (this : nat) (param : Value) : Js Value :=
  _setProps this "background" param;;
  mret (VRef this).

Definition link (this : nat) (url : Value) : Js Value :=
  _setProps this "link" url;;
  mret (VRef this).

Definition widgetURL (this : nat) (url : Value) : Js Value :=
  _setProps this "widgetURL" url;;
  mret (VRef this).

End BaseWidget.

(** ** The exported classes *)

Module Text.

Definition constructor : Js nat :=
  this ← BaseWidget.constructor Text VUndefined;
  modify this (with_type (VStr "text"));;
  mret this.

Definition text (this : nat) (text : Value) : Js Value :=
  BaseWidget._setProps this "text" text;;
  mret (VRef this).

Definition date (this : nat) (date : Value) : Js Value :=
  BaseWidget._setProps this "date" date;;
  mret (VRef this).

Definition style (this : nat) (num : Value) : Js Value :=
  BaseWidget._setProps this "style" num;;
  mret (VRef this).

Definition startDate (this : nat) (date : Value) : Js Value :=
  BaseWidget._setProps this "startDate" date;;
  mret (VRef this).

Definition endDate (this : nat) (date : Value) : Js Value :=
  BaseWidget._setProps this "endDate" date;;
  mret (VRef this).

Definition bold (this : nat) (bool : Value) : Js Value :=
  let bool := default_param (VBool true) bool in
  BaseWidget._setProps this "bold" bool;;
  mret (VRef this).

Definition font (this : nat) (font : Value) : Js Value :=
  BaseWidget._setProps this "font" font;;
  mret (VRef this).

Definition lineLimit (this : nat) (num : Value) : Js Value :=
  BaseWidget._setProps this "lineLimit" num;;
  mret (VRef this).

Definition minimumScaleFactor (this : nat) (num : Value) : Js Value :=
  BaseWidget._setProps this "minimumScaleFactor" num;;
  mret (VRef this).

End Text.

Module Image.

Definition constructor : Js nat :=
  this ← BaseWidget.constructor Image VUndefined;
  modify this (with_type (VStr "image"));;
  mret this.

Definition image (this : nat) (image : Value) : Js Value :=
  BaseWidget._setProps this "image" image;;
  mret (VRef this).

Definition symbol (this : nat) (symbol : Value) : Js Value :=
  BaseWidget._setProps this "symbol" symbol;;
  mret (VRef this).

Definition path (this : nat) (path : Value) : Js Value :=
  BaseWidget._setProps this "path" path;;
  mret (VRef this).

Definition uri (this : nat) (uri : Value) : Js Value :=
  BaseWidget._setProps this "uri" uri;;
  mret (VRef this).

Definition resizable (this : nat) (bool : Value) : Js Value :=
  let bool := default_param (VBool true) bool in
  BaseWidget._setProps this "resizable" bool;;
  mret (VRef this).

Definition scaledToFill (this : nat) (bool : Value) : Js Value :=
  let bool := default_param (VBool true) bool in
  BaseWidget._setProps this "scaledToFill" bool;;
  mret (VRef this).

Definition scaledToFit (this : nat) (bool : Value) : Js Value :=
  let bool := default_param (VBool true) bool in
  BaseWidget._setProps this "scaledToFit" bool;;
  mret (VRef this).

Definition accessibilityHidden (this : nat) (bool : Value) : Js Value :=
  let bool := default_param (VBool true) bool in
  BaseWidget._setProps this "accessibilityHidden" bool;;
  mret (VRef this).

Definition accessibilityLabel (this : nat) (bool : Value) : Js Value :=
  let bool := default_param (VBool true) bool in
  BaseWidget._setProps this "accessibilityLabel" bool;;
  mret (VRef this).

Definition accessibilityHint (this : nat) (bool : Value) : Js Value :=
  let bool := default_param (VBool true) bool in
  BaseWidget._setProps this "accessibilityHint" bool;;
  mret (VRef this).

End Image.

Module Color.

Definition constructor : Js nat :=
  this ← BaseWidget.constructor Color VUndefined;
  modify this (with_type (VStr "color"));;
  mret this.

Definition color (this : nat) (param : Value) : Js Value :=
  BaseWidget._setProps this "color" param;;
  mret (VRef this).

Definition light (this : nat) (hex : Value) : Js Value :=
  BaseWidget._setProps this "light" hex;;
  mret (VRef this).

Definition dark (this : nat) (hex : Value) : Js Value :=
  BaseWidget._setProps this "dark" hex;;
  mret (VRef this).

End Color.

Module Gradient.

Definition constructor : Js nat :=
  this ← BaseWidget.constructor Gradient VUndefined;
  modify this (with_type (VStr "gradient"));;
  mret this.

Definition startPoint (this : nat) (point : Value) : Js Value :=
  BaseWidget._setProps this "startPoint" point;;
  mret (VRef this).

Definition endPoint (this : nat) (point : Value) : Js Value :=
  BaseWidget._setProps this "endPoint" point;;
  mret (VRef this).

Definition locations (this : nat) (arr : Value) : Js Value :=
  BaseWidget._setProps this "locations" arr;;
  mret (VRef this).

Definition colors (this : nat) (arr : Value) : Js Value :=
  BaseWidget._setProps this "colors" arr;;
  mret (VRef this).

End Gradient.

Module Hstack.

Definition constructor : Js nat :=
  this ← BaseWidget.constructor Hstack VUndefined;
  modify this (with_type (VStr "hstack"));;
  mret this.

Definition alignment (this : nat) (num : Value) : Js Value :=
  BaseWidget._setProps this "alignment" num;;
  mret (VRef this).

Definition spacing (this : nat) (num : Value) : Js Value :=
  BaseWidget._setProps this "spacing" num;;
  mret (VRef this).

End Hstack.

Module Vstack.

Definition constructor : Js nat :=
  this ← BaseWidget.constructor Vstack VUndefined;
  modify this (with_type (VStr "vstack"));;
  mret this.

Definition alignment (this : nat) (num : Value) : Js Value :=
  BaseWidget._setProps this "alignment" num;;
  mret (VRef this).

Definition spacing (this : nat) (num : Value) : Js Value :=
  BaseWidget._setProps this "spacing" num;;
  mret (VRef this).

End Vstack.

Module Zstack.

Definition constructor : Js nat :=
  this ← BaseWidget.constructor Zstack VUndefined;
  modify this (with_type (VStr "zstack"));;
  mret this.

Definition alignment (this : nat) (num : Value) : Js Value :=
  BaseWidget._setProps this "alignment" num;;
  mret (VRef this).

End Zstack.

Module Spacer.

Definition constructor : Js nat :=
  this ← BaseWidget.constructor Spacer VUndefined;
  modify this (with_type (VStr "spacer"));;
  mret this.

Definition minLength (this : nat) (num : Value) : Js Value :=
  BaseWidget._setProps this "minLength" num;;
  mret (VRef this).

End Spacer.

Module Divider.

Definition constructor : Js nat :=
  this ← BaseWidget.constructor Divider VUndefined;
  modify this (with_type (VStr "divider"));;
  mret this.

End Divider.

Module Hgrid.

Definition constructor : Js nat :=
  this ← BaseWidget.constructor Hgrid VUndefined;
  modify this (with_type (VStr "hgrid"));;
  mret this.

Definition rows (this : nat) (arr : Value) : Js Value :=
  BaseWidget._setProps this "rows" arr;;
  mret (VRef this).

Definition spacing (this : nat) (num : Value) : Js Value :=
  BaseWidget._setProps this "spacing" num;;
  mret (VRef this).

Definition alignment (this : nat) (num : Value) : Js Value :=
  BaseWidget._setProps this "alignment" num;;
  mret (VRef this).

End Hgrid.

Module Vgrid.

Definition constructor : Js nat :=
  this ← BaseWidget.constructor Vgrid VUndefined;
  modify this (with_type (VStr "vgrid"));;
  mret this.

Definition columns (this : nat) (arr : Value) : Js Value :=
  BaseWidget._setProps this "columns" arr;;
  mret (VRef this).

Definition spacing (this : nat) (num : Value) : Js Value :=
  BaseWidget._setProps this "spacing" num;;
  mret (VRef this).

Definition alignment (this : nat) (num : Value) : Js Value :=
  BaseWidget._setProps this "alignment" num;;
  mret (VRef this).

End Vgrid.

(** [module.exports] *)
Definition module_exports : list Class :=
  [Text; Image; Color; Gradient; Divider; Hstack; Vstack; Zstack; Spacer;
   Hgrid; Vgrid].

(** [new C(...)]. Only [BaseWidget]'s constructor has a parameter. *)
Definition new (c : Class) (arg : Value) : Js nat :=
  match c with
  | BaseWidget => BaseWidget.constructor BaseWidget arg
  | Text => Text.constructor
  | Image => Image.constructor
  | Color => Color.constructor
  | Gradient => Gradient.constructor
  | Divider => Divider.constructor
  | Hstack => Hstack.constructor
  | Vstack => Vstack.constructor
  | Zstack => Zstack.constructor
  | Spacer => Spacer.constructor
  | Hgrid => Hgrid.constructor
  | Vgrid => Vgrid.constructor
  end.

(** ** The public call surface *)

(** A method call [recv.name(args)], by name and arguments. An argument
    that is left out is [VUndefined]. *)
Module Method.

Inductive t : Type :=
| setViews (arr : list Value)
| setProps (name : string) (value : Value)
| frame (param : Value)
| position (point : Value)
| offset (point : Value)
| padding (param : Value)
| layoutPriority (num : Value)
| cornerRadius (param : Value)
| border (param : Value)
| clipped (bool antialiased : Value)
| opacity (num : Value)
| blur (num : Value)
| color (param : Value)
| background (param : Value)
| link (url : Value)
| widgetURL (url : Value)
| text (text : Value)
| date (date : Value)
| style (num : Value)
| startDate (date : Value)
| endDate (date : Value)
| bold (bool : Value)
| font (font : Value)
| lineLimit (num : Value)
| minimumScaleFactor (num : Value)
| image (image : Value)
| symbol (symbol : Value)
| path (path : Value)
| uri (uri : Value)
| resizable (bool : Value)
| scaledToFill (bool : Value)
| scaledToFit (bool : Value)
| accessibilityHidden (bool : Value)
| accessibilityLabel (bool : Value)
| accessibilityHint (bool : Value)
| light (hex : Value)
| dark (hex : Value)
| startPoint (point : Value)
| endPoint (point : Value)
| locations (arr : Value)
| colors (arr : Value)
| alignment (num : Value)
| spacing (num : Value)
| minLength (num : Value)
| rows (arr : Value)
| columns (arr : Value).

End Method.

(** The function a method name resolves to on an object of class [c]: the
    class's own method if it declares one, else [BaseWidget]'s. *)
Definition resolve (c : Class) (m : Method.t) : option (nat → Js Value) :=
  match m with
  | Method.setViews arr => Some (λ this, BaseWidget.setViews this arr)
  | Method.setProps name value => Some (λ this, BaseWidget.setProps this name value)
  | Method.frame param => Some (λ this, BaseWidget.frame this param)
  | Method.position point => Some (λ this, BaseWidget.position this point)
  | Method.offset point => Some (λ this, BaseWidget.offset this point)
  | Method.padding param => Some (λ this, BaseWidget.padding this param)
  | Method.layoutPriority num => Some (λ this, BaseWidget.layoutPriority this num)
  | Method.cornerRadius param => Some (λ this, BaseWidget.cornerRadius this param)
  | Method.border param => Some (λ this, BaseWidget.border this param)
  | Method.clipped bool antialiased =>
      Some (λ this, BaseWidget.clipped this bool antialiased)
  | Method.opacity num => Some (λ this, BaseWidget.opacity this num)
  | Method.blur num => Some (λ this, BaseWidget.blur this num)
  | Method.color param =>
      match c with
      | Color => Some (λ this, Color.color this param)
      | _ => Some (λ this, BaseWidget.color this param)
      end
  | Method.background param => Some (λ this, BaseWidget.background this param)
  | Method.link url => Some (λ this, BaseWidget.link this url)
  | Method.widgetURL url => Some (λ this, BaseWidget.widgetURL this url)
  | Method.text v => if c is Text then Some (λ this, Text.text this v) else None
  | Method.date v => if c is Text then Some (λ this, Text.date this v) else None
  | Method.style v => if c is Text then Some (λ this, Text.style this v) else None
  | Method.startDate v =>
      if c is Text then Some (λ this, Text.startDate this v) else None
  | Method.endDate v => if c is Text then Some (λ this, Text.endDate this v) else None
  | Method.bold v => if c is Text then Some (λ this, Text.bold this v) else None
  | Method.font v => if c is Text then Some (λ this, Text.font this v) else None
  | Method.lineLimit v =>
      if c is Text then Some (λ this, Text.lineLimit this v) else None
  | Method.minimumScaleFactor v =>
      if c is Text then Some (λ this, Text.minimumScaleFactor this v) else None
  | Method.image v => if c is Image then Some (λ this, Image.image this v) else None
  | Method.symbol v => if c is Image then Some (λ this, Image.symbol this v) else None
  | Method.path v => if c is Image then Some (λ this, Image.path this v) else None
  | Method.uri v => if c is Image then Some (λ this, Image.uri this v) else None
  | Method.resizable v =>
      if c is Image then Some (λ this, Image.resizable this v) else None
  | Method.scaledToFill v =>
      if c is Image then Some (λ this, Image.scaledToFill this v) else None
  | Method.scaledToFit v =>
      if c is Image then Some (λ this, Image.scaledToFit this v) else None
  | Method.accessibilityHidden v =>
      if c is Image then Some (λ this, Image.accessibilityHidden this v) else None
  | Method.accessibilityLabel v =>
      if c is Image then Some (λ this, Image.accessibilityLabel this v) else None
  | Method.accessibilityHint v =>
      if c is Image then Some (λ this, Image.accessibilityHint this v) else None
  | Method.light v => if c is Color then Some (λ this, Color.light this v) else None
  | Method.dark v => if c is Color then Some (λ this, Color.dark this v) else None
  | Method.startPoint v =>
      if c is Gradient then Some (λ this, Gradient.startPoint this v) else None
  | Method.endPoint v =>
      if c is Gradient then Some (λ this, Gradient.endPoint this v) else None
  | Method.locations v =>
      if c is Gradient then Some (λ this, Gradient.locations this v) else None
  | Method.colors v =>
      if c is Gradient then Some (λ this, Gradient.colors this v) else None
  | Method.alignment num =>
      match c with
      | Hstack => Some (λ this, Hstack.alignment this num)
      | Vstack => Some (λ this, Vstack.alignment this num)
      | Zstack => Some (λ this, Zstack.alignment this num)
      | Hgrid => Some (λ this, Hgrid.alignment this num)
      | Vgrid => Some (λ this, Vgrid.alignment this num)
      | _ => None
      end
  | Method.spacing num =>
      match c with
      | Hstack => Some (λ this, Hstack.spacing this num)
      | Vstack => Some (λ this, Vstack.spacing this num)
      | Hgrid => Some (λ this, Hgrid.spacing this num)
      | Vgrid => Some (λ this, Vgrid.spacing this num)
      | _ => None
      end
  | Method.minLength v =>
      if c is Spacer then Some (λ this, Spacer.minLength this v) else None
  | Method.rows v => if c is Hgrid then Some (λ this, Hgrid.rows this v) else None
  | Method.columns v =>
      if c is Vgrid then Some (λ this, Vgrid.columns this v) else None
  end.

(** [this.name(args)] on a widget: a name the class does not have is
    [undefined], and calling it throws. *)
Definition invoke (this : nat) (m : Method.t) : Js Value :=
  w ← read this;
  match resolve (cls w) m with
  | Some f => f this
  | None => throw TypeError
  end.

(** [recv.name(args)] on the value a previous call returned, as in a chain
    [w.a().b()]. Reading a property of [undefined] or [null] throws; values
    that are no widgets are no receivers of this module's methods and are
    given the same outcome. *)
Definition call (recv : Value) (m : Method.t) : Js Value :=
  match recv with
  | VRef this => invoke this m
  | _ => throw TypeError
  end.

(** [w.m1().m2()...]: each call is made on what the previous one returned. *)
Fixpoint chain (recv : Value) (ms : list Method.t) : Js Value :=
  match ms with
  | [] => mret recv
  | m :: ms => r ← call recv m; chain r ms
  end.

(** Everything a caller does with one widget: the method calls, the
    accessors, and the assignment to [views]. *)
Inductive Op : Type :=
| OCall (m : Method.t)
| OGetViews
| OSetViews (arr : list Value)
| OGetProps
| OGetModifiers
| OGetDefinition (fuel : nat).

Definition perform (this : nat) (op : Op) : Js Value :=
  match op with
  | OCall m => invoke this m
  | OGetViews => w ← read this; mret (VArr (BaseWidget.views w))
  | OSetViews arr => BaseWidget.set_views this arr;; mret (VArr arr)
  | OGetProps => w ← read this; mret (BaseWidget.props w)
  | OGetModifiers => w ← read this; mret (BaseWidget.modifiers w)
  | OGetDefinition fuel => BaseWidget.definition fuel this
  end.

(** A client program: it constructs widgets and operates on them, and
    goes on after an exception it catches. *)
Inductive Cmd : Type :=
| CNew (c : Class) (arg : Value)
| CDo (this : nat) (op : Op).

Definition exec (h : Heap) (c : Cmd) : Heap :=
  match c with
  | CNew c arg => heap_of (new c arg h)
  | CDo this op => heap_of (perform this op h)
  end.

Definition run (cs : list Cmd) (h : Heap) : Heap := foldl exec h cs.

(** A client of the module constructs the exported classes only. *)
Definition uses_exports (c : Cmd) : bool :=
  match c with
  | CNew c _ => bool_decide (c ∈ module_exports)
  | CDo _ _ => true
  end.

(** The widgets below [view] form a tree of depth at most [n]: every
    reference is to a widget in the heap, and none leads back. *)
Fixpoint finite_depth (n : nat) (h : Heap) (view : nat) : bool :=
  match n with
  | O => false
  | S n =>
      match h !! view with
      | Some w =>
          forallb (λ c, match c with
                        | VRef l => finite_depth n h l
                        | _ => true
                        end) (_views w)
      | None => false
      end
  end.

(** ** Serialisation, in parts *)

(** The callback [_getDefinition] maps over the children. *)
Definition child_definition (fuel : nat) (h : Heap) (n : Value) : option Value :=
  match n with
  | VRef l => BaseWidget._getDefinition fuel h l
  | _ => Some n
  end.

(** The object [_getDefinition] returns for a widget, given what the
    callback produced for the children. *)
Definition definition_object (w : Widget) (vs : list Value) : gmap string Value :=
  let definition : gmap string Value := <["type" := type w]> ∅ in
  let definition :=
    if truthy (ordered w)
    then <["modifiers" := BaseWidget.modifiers w]> definition
    else <["props" := BaseWidget.props w]> definition in
  if bool_decide (length (BaseWidget.views w) ≠ 0)
  then <["views" := VArr vs]> definition
  else definition.

(** The [type] each constructor sets. *)
Definition class_type (c : Class) : Value :=
  match c with
  | BaseWidget => VUndefined
  | Text => VStr "text"
  | Image => VStr "image"
  | Color => VStr "color"
  | Gradient => VStr "gradient"
  | Divider => VStr "divider"
  | Hstack => VStr "hstack"
  | Vstack => VStr "vstack"
  | Zstack => VStr "zstack"
  | Spacer => VStr "spacer"
  | Hgrid => VStr "hgrid"
  | Vgrid => VStr "vgrid"
  end.

(** What a method call does to its receiver [w], held at [this]: it stores
    one attribute, or replaces the children, or throws before any write. *)
Inductive method_effect (this : nat) (w : Widget) (h : Heap)
  : Outcome Value → Prop :=
| effect_attribute name value r :
    r = VRef this ∨ r = VUndefined →
    method_effect this w h
      (Normal r (<[this := with_props (Map_set name value (_props w)) w]> h))
| effect_children arr :
    method_effect this w h (Normal (VRef this) (<[this := with_views arr w]> h))
| effect_throw :
    method_effect this w h (Throw TypeError h).

(** ** The call surface, by name *)

(** The property name a call reads off its receiver. *)
Definition method_name (m : Method.t) : string :=
  match m with
  | Method.setViews _ => "setViews"
  | Method.setProps _ _ => "setProps"
  | Method.frame _ => "frame"
  | Method.position _ => "position"
  | Method.offset _ => "offset"
  | Method.padding _ => "padding"
  | Method.layoutPriority _ => "layoutPriority"
  | Method.cornerRadius _ => "cornerRadius"
  | Method.border _ => "border"
  | Method.clipped _ _ => "clipped"
  | Method.opacity _ => "opacity"
  | Method.blur _ => "blur"
  | Method.color _ => "color"
  | Method.background _ => "background"
  | Method.link _ => "link"
  | Method.widgetURL _ => "widgetURL"
  | Method.text _ => "text"
  | Method.date _ => "date"
  | Method.style _ => "style"
  | Method.startDate _ => "startDate"
  | Method.endDate _ => "endDate"
  | Method.bold _ => "bold"
  | Method.font _ => "font"
  | Method.lineLimit _ => "lineLimit"
  | Method.minimumScaleFactor _ => "minimumScaleFactor"
  | Method.image _ => "image"
  | Method.symbol _ => "symbol"
  | Method.path _ => "path"
  | Method.uri _ => "uri"
  | Method.resizable _ => "resizable"
  | Method.scaledToFill _ => "scaledToFill"
  | Method.scaledToFit _ => "scaledToFit"
  | Method.accessibilityHidden _ => "accessibilityHidden"
  | Method.accessibilityLabel _ => "accessibilityLabel"
  | Method.accessibilityHint _ => "accessibilityHint"
  | Method.light _ => "light"
  | Method.dark _ => "dark"
  | Method.startPoint _ => "startPoint"
  | Method.endPoint _ => "endPoint"
  | Method.locations _ => "locations"
  | Method.colors _ => "colors"
  | Method.alignment _ => "alignment"
  | Method.spacing _ => "spacing"
  | Method.minLength _ => "minLength"
  | Method.rows _ => "rows"
  | Method.columns _ => "columns"
  end.

Definition is_layoutPriority (m : Method.t) : bool :=
  match m with
  | Method.layoutPriority _ => true
  | _ => false
  end.

(** The names [frame] destructures, and those [border] does. *)
Definition frame_names : list string :=
  ["width"; "height"; "alignment"; "minWidth"; "idealWidth"; "maxWidth";
   "minHeight"; "idealHeight"; "maxHeight"].

Definition border_names : list string := ["color"; "width"].

(** [child] is a widget among the children of [parent]. *)
Definition child_of (h : Heap) (parent child : nat) : Prop :=
  ∃ w, h !! parent = Some w ∧ VRef child ∈ _views w.

(** ** Example programs and heaps *)

Definition scenario_text : Js Value :=
  this ← new Text VUndefined;
  chain (VRef this)
    [Method.text (VStr "hi"); Method.bold VUndefined; Method.padding (VNum 10%float)].

Definition scenario_zstack (fuel : nat) : Js Value :=
  title ← scenario_text;
  zstack ← new Zstack VUndefined;
  BaseWidget.set_views zstack [title];;
  BaseWidget.definition fuel zstack.

(** A [Zstack] at 1 whose children are the [Text] at 0 and a raw string. *)
Definition zstack_heap : Heap :=
  <[1 := mkWidget Zstack (VBool false) (VStr "zstack") [] [VRef 0; VStr "raw"]]>
    {[0 := mkWidget Text (VBool false) (VStr "text") [("text", VStr "hi")] []]}.

(** * Properties *)

(** The end-to-end scenario: a [Text] with [text("hi")], [bold()] and
    [padding(10)], the only child of a [Zstack] without attributes. *)
Example scenario_zstack_definition :
  ∃ h, scenario_zstack 2 ∅ = Normal
    (VObj (<["type" := VStr "zstack"]> (<["props" := VObj ∅]>
       {["views" := VArr [VObj (<["type" := VStr "text"]>
          {["props" := VObj (<["text" := VStr "hi"]> (<["bold" := VBool true]>
                             {["padding" := VNum 10%float]}))]}) ] ]}))) h.
Proof. eexists. vm_compute. reflexivity. Qed.

(** A child that is mutated after it was attached: the parent's next
    definition has the new text. *)
Example child_mutation_is_seen :
  ∃ h' d d',
    BaseWidget._getDefinition 2 zstack_heap 1 = Some d
    ∧ invoke 0 (Method.text (VStr "bye")) zstack_heap = Normal (VRef 0) h'
    ∧ BaseWidget._getDefinition 2 h' 1 = Some d'
    ∧ d ≠ d'.
Proof.
  eexists _, _, _. split_and!; [by vm_compute..|]. intros Heq. discriminate Heq.
Qed.

(** ** The attribute store *)

Section attribute_store.
Implicit Types (m : JsMap) (k name : string) (v value : Value).

Lemma Map_get_None m k : Map_get k m = None ↔ k ∉ Map_keys m.
Proof.
  unfold Map_keys. induction m as [|[k' v'] m IH]; simpl.
  - split; [intros _; apply not_elem_of_nil | done].
  - rewrite not_elem_of_cons. destruct (String.eqb_spec k' k) as [->|Hne].
    + split; [done | intros [? _]; done].
    + rewrite IH. split; [intros ?; split; [congruence | done] | intros [_ ?]; done].
Qed.

Lemma Map_get_Some_elem m k v : Map_get k m = Some v → (k, v) ∈ m.
Proof.
  induction m as [|[k' v'] m IH]; simpl; [done|].
  destruct (String.eqb_spec k' k) as [->|Hne].
  - intros [= ->]. left.
  - intros ?. right. auto.
Qed.

Lemma Map_get_set m name value k :
  Map_get k (Map_set name value m)
  = if decide (name = k) then Some value else Map_get k m.
Proof.
  induction m as [|[k' v'] m IH]; simpl.
  - destruct (String.eqb_spec name k), (decide (name = k)); congruence.
  - destruct (String.eqb_spec k' name) as [->|Hne]; simpl.
    + destruct (String.eqb_spec name k), (decide (name = k)); congruence.
    + destruct (String.eqb_spec k' k) as [->|Hne'].
      * rewrite decide_False by congruence. done.
      * apply IH.
Qed.

Lemma Map_set_snoc m name value :
  name ∉ Map_keys m → Map_set name value m = m ++ [(name, value)].
Proof.
  unfold Map_keys. induction m as [|[k' v'] m IH]; simpl; [done|].
  rewrite not_elem_of_cons. intros [Hne Hnotin].
  destruct (String.eqb_spec k' name); [congruence|].
  by rewrite IH.
Qed.

(** Overwriting a key updates the entry at the place where the key stands. *)
Lemma Map_set_overwrite m name v value :
  Map_get name m = Some v →
  ∃ i, m !! i = Some (name, v) ∧ Map_set name value m = <[i := (name, value)]> m.
Proof.
  induction m as [|[k' v'] m IH]; simpl; [done|].
  destruct (String.eqb_spec k' name) as [->|Hne].
  - intros [= ->]. by exists 0.
  - intros Hget. destruct (IH Hget) as (i & Hi & Heq).
    exists (S i). simpl. by rewrite Heq.
Qed.

Lemma Map_keys_set m name value :
  Map_keys (Map_set name value m)
  = if decide (name ∈ Map_keys m) then Map_keys m else Map_keys m ++ [name].
Proof.
  unfold Map_keys. induction m as [|[k' v'] m IH]; csimpl.
  - done.
  - destruct (String.eqb_spec k' name) as [->|Hne]; csimpl.
    + clear IH. case_decide; [done | set_solver].
    + rewrite IH. clear IH.
      destruct (decide (name ∈ m.*1)) as [Hin|Hnotin], (decide (name ∈ k' :: m.*1)) as [Hin'|Hnotin'];
        [done | | | done].
      * exfalso. apply Hnotin'. by apply list_elem_of_further.
      * apply elem_of_cons in Hin' as [?|?]; congruence.
Qed.

(** The keys of the store stay pairwise distinct. *)
Lemma Map_set_NoDup m name value :
  NoDup (Map_keys m) → NoDup (Map_keys (Map_set name value m)).
Proof.
  intros Hnd. rewrite Map_keys_set. case_decide; [done|].
  apply NoDup_app. split_and!; [done | | apply NoDup_singleton].
  intros x Hx ->%list_elem_of_singleton. done.
Qed.

Lemma foldl_insert_lookup m (obj : gmap string Value) k :
  NoDup (Map_keys m) →
  foldl (λ obj n, <[n.1 := n.2]> obj) obj m !! k
  = match Map_get k m with Some v => Some v | None => obj !! k end.
Proof.
  unfold Map_keys. revert obj. induction m as [|[k' v'] m IH]; intros obj; simpl; [done|].
  intros [Hnotin Hnd]%NoDup_cons. rewrite IH by done.
  destruct (String.eqb_spec k' k) as [->|Hne].
  - apply Map_get_None in Hnotin. rewrite Hnotin. apply lookup_insert_eq.
  - by rewrite lookup_insert_ne.
Qed.

(** On a store with distinct keys, the object of its entries has exactly
    the store's bindings. *)
Lemma Object_fromEntries_lookup m k :
  NoDup (Map_keys m) → Object_fromEntries m !! k = Map_get k m.
Proof.
  intros Hnd. unfold Object_fromEntries. rewrite foldl_insert_lookup by done.
  rewrite lookup_empty. by destruct (Map_get k m).
Qed.

Lemma Object_fromEntries_set m name value :
  NoDup (Map_keys m) →
  Object_fromEntries (Map_set name value m) = <[name := value]> (Object_fromEntries m).
Proof.
  intros Hnd. apply map_eq. intros k.
  rewrite Object_fromEntries_lookup by by apply Map_set_NoDup.
  rewrite Map_get_set. case_decide as Hk.
  - subst. by rewrite lookup_insert_eq.
  - rewrite lookup_insert_ne by done. by rewrite Object_fromEntries_lookup.
Qed.

Lemma Object_fromEntries_singleton k v :
  Object_fromEntries [(k, v)] = {[k := v]}.
Proof. unfold Object_fromEntries. simpl. apply insert_empty. Qed.

End attribute_store.

(** ** Running the methods *)

Section methods.
Context (this : nat) (w : Widget) (h : Heap) (Hthis : h !! this = Some w).

Lemma _setProps_run name value :
  BaseWidget._setProps this name value h
  = Normal VUndefined (<[this := with_props (Map_set name value (_props w)) w]> h).
Proof using Hthis.
  unfold BaseWidget._setProps, modify, mbind, Js_bind. by rewrite Hthis.
Qed.

Lemma setter_run name value r :
((BaseWidget._setProps this name value;; mret r) : Js Value) h
  = Normal r (<[this := with_props (Map_set name value (_props w)) w]> h).
Proof using Hthis.
  unfold mbind at 1. unfold Js_bind. by rewrite _setProps_run.
Qed.

Lemma setProps_run name value :
  BaseWidget.setProps this name value h
  = Normal (VRef this) (<[this := with_props (Map_set name value (_props w)) w]> h).
Proof using Hthis. apply setter_run. Qed.

Lemma setViews_run arr :
  BaseWidget.setViews this arr h
  = Normal (VRef this) (<[this := with_views arr w]> h).
Proof using Hthis.
  unfold BaseWidget.setViews, BaseWidget.set_views, modify, mbind, Js_bind.
  by rewrite Hthis.
Qed.

Lemma setter_effect name value r :
  r = VRef this ∨ r = VUndefined →
  method_effect this w h
    (((BaseWidget._setProps this name value;; mret r) : Js Value) h).
Proof using Hthis. intros Hr. rewrite setter_run. by constructor. Qed.

Lemma frame_effect param :
  method_effect this w h (BaseWidget.frame this param h).
Proof using Hthis.
  unfold BaseWidget.frame.
  destruct (destructurable (default_param (VObj ∅) param)); [|constructor].
  unfold mbind at 1. unfold Js_bind at 1. apply setter_effect. by left.
Qed.

Lemma border_effect param :
  method_effect this w h (BaseWidget.border this param h).
Proof using Hthis.
  unfold BaseWidget.border. destruct (destructurable param); [|constructor].
  unfold mbind at 1. unfold Js_bind at 1. apply setter_effect. by left.
Qed.

Lemma clipped_effect b a :
  method_effect this w h (BaseWidget.clipped this b a h).
Proof using Hthis.
  unfold BaseWidget.clipped. destruct (truthy a); apply setter_effect; by left.
Qed.

Lemma resolve_effect m f :
  resolve (cls w) m = Some f → method_effect this w h (f this h).
Proof using Hthis.
  destruct m; simpl;
    try (intros [= <-];
         first [ apply setter_effect; auto
               | apply frame_effect | apply border_effect | apply clipped_effect
               | rewrite setViews_run; constructor ]);
    destruct (cls w); intros [= <-]; apply setter_effect; auto.
Qed.

Lemma invoke_effect m : method_effect this w h (invoke this m h).
Proof using Hthis.
  unfold invoke, read, mbind, Js_bind. rewrite Hthis.
  destruct (resolve (cls w) m) as [f|] eqn:Hf; [|constructor].
  by apply (resolve_effect m).
Qed.

End methods.

Lemma invoke_unallocated this m h :
  h !! this = None → invoke this m h = Throw TypeError h.
Proof. intros Hnone. unfold invoke, read, mbind, Js_bind. by rewrite Hnone. Qed.

(** ** Serialisation *)

Lemma _getDefinition_S fuel h view :
  BaseWidget._getDefinition (S fuel) h view
  = w ← h !! view;
    vs ← mapM (child_definition fuel h) (_views w);
    Some (VObj (definition_object w vs)).
Proof.
  simpl. destruct (h !! view) as [w|]; simpl; [|done].
  unfold definition_object, BaseWidget.views.
  destruct (_views w) as [|c cs]; [done|].
  rewrite !bool_decide_true by done.
  fold (child_definition fuel h).
  by destruct (mapM (child_definition fuel h) (c :: cs)).
Qed.

Lemma _getDefinition_Some fuel h view d :
  BaseWidget._getDefinition (S fuel) h view = Some d ↔
  ∃ w vs, h !! view = Some w
    ∧ Forall2 (λ n v, child_definition fuel h n = Some v) (_views w) vs
    ∧ d = VObj (definition_object w vs).
Proof.
  rewrite _getDefinition_S. split.
  - destruct (h !! view) as [w|]; simpl; [|done].
    destruct (mapM _ _) as [vs|] eqn:Hvs; simpl; [|done].
    intros [= <-]. exists w, vs. by apply mapM_Some in Hvs.
  - intros (w & vs & -> & Hvs%mapM_Some & ->). simpl. by rewrite Hvs.
Qed.

#[global] Arguments BaseWidget._getDefinition : simpl never.

(** More fuel does not change a definition. *)
Lemma _getDefinition_S_fuel fuel h view d :
  BaseWidget._getDefinition fuel h view = Some d →
  BaseWidget._getDefinition (S fuel) h view = Some d.
Proof.
  revert view d. induction fuel as [|fuel IH]; intros view d; [done|].
  rewrite !_getDefinition_Some. intros (w & vs & Hw & Hvs & ->).
  exists w, vs. split_and!; [done | | done].
  eapply Forall2_impl; [exact Hvs|]. intros [] v; simpl; auto.
Qed.

Lemma _getDefinition_mono fuel fuel' h view d :
  fuel ≤ fuel' →
  BaseWidget._getDefinition fuel h view = Some d →
  BaseWidget._getDefinition fuel' h view = Some d.
Proof.
  induction 1 as [|fuel' _ IH]; [done|].
  intros Hd. by apply _getDefinition_S_fuel, IH.
Qed.

(** A tree of widgets of depth at most [fuel] is serialised. *)
Lemma _getDefinition_total fuel h view :
  finite_depth fuel h view = true →
  is_Some (BaseWidget._getDefinition fuel h view).
Proof.
  revert view. induction fuel as [|fuel IH]; intros view; simpl finite_depth; [done|].
  destruct (h !! view) as [w|] eqn:Hw; [|done].
  intros Hall. rewrite forallb_forall in Hall.
  assert (∃ vs, Forall2 (λ n v, child_definition fuel h n = Some v) (_views w) vs)
    as [vs Hvs].
  { induction (_views w) as [|c cs IHcs]; [by exists []|].
    destruct IHcs as [vs Hvs]; [intros x Hx; apply Hall; by right|].
    assert (is_Some (child_definition fuel h c)) as [v Hv].
    { specialize (Hall c (or_introl eq_refl)).
      destruct c; simpl; eauto. }
    exists (v :: vs). by constructor. }
  exists (VObj (definition_object w vs)).
  apply _getDefinition_Some. eauto.
Qed.

(** Conversely, what is serialised is such a tree. *)
Lemma _getDefinition_finite_depth fuel h view d :
  BaseWidget._getDefinition fuel h view = Some d → finite_depth fuel h view = true.
Proof.
  revert view d. induction fuel as [|fuel IH]; intros view d; [done|].
  intros Hd. apply _getDefinition_Some in Hd as (w & vs & Hw & Hvs & _).
  simpl. rewrite Hw. apply forallb_forall. intros c Hc.
  apply list_elem_of_In, list_elem_of_lookup in Hc as [i Hi].
  destruct (Forall2_lookup_l _ _ _ _ _ Hvs Hi) as (v & _ & Hv).
  destruct c; simpl in *; eauto.
Qed.

(** A widget that is serialised is not among its own descendants: at the
    least fuel that serialises it, its children are serialised with less,
    where the widget itself is not. So rewriting the widget leaves the
    definitions of its children as they are. *)
Lemma _getDefinition_least_fuel fuel h view d :
  BaseWidget._getDefinition fuel h view = Some d →
  ∃ n, n < fuel
    ∧ BaseWidget._getDefinition n h view = None
    ∧ BaseWidget._getDefinition (S n) h view = Some d.
Proof.
  induction fuel as [|fuel IH]; [done|]. intros Hd.
  destruct (BaseWidget._getDefinition fuel h view) as [d'|] eqn:Hd'.
  - pose proof (_getDefinition_S_fuel _ _ _ _ Hd') as Hd''.
    assert (d' = d) as -> by congruence.
    destruct (IH eq_refl) as (n & Hn & Hnone & Hsome). exists n. split_and!; [lia | done..].
  - exists fuel. split_and!; [lia | done..].
Qed.

Lemma _getDefinition_insert_other fuel h this w' view d :
  BaseWidget._getDefinition fuel h this = None →
  BaseWidget._getDefinition fuel h view = Some d →
  BaseWidget._getDefinition fuel (<[this := w']> h) view = Some d.
Proof.
  revert view d. induction fuel as [|fuel IH]; intros view d Hnone; [done|].
  assert (BaseWidget._getDefinition fuel h this = None) as Hnone'.
  { destruct (BaseWidget._getDefinition fuel h this) eqn:Hd; [|done].
    apply _getDefinition_S_fuel in Hd. congruence. }
  rewrite !_getDefinition_Some. intros (w & vs & Hw & Hvs & ->).
  assert (view ≠ this) as Hne.
  { intros ->. assert (is_Some (BaseWidget._getDefinition (S fuel) h this)) as [? ?];
      [|congruence].
    eexists. apply _getDefinition_Some. eauto. }
  exists w, vs. rewrite lookup_insert_ne by done. split_and!; [done | | done].
  eapply Forall2_impl; [exact Hvs|]. intros [] v; simpl; auto.
Qed.

Lemma _getDefinition_insert fuel h this w w' d :
  h !! this = Some w →
  _views w' = _views w →
  BaseWidget._getDefinition fuel h this = Some d →
  ∃ vs, d = VObj (definition_object w vs)
    ∧ BaseWidget._getDefinition fuel (<[this := w']> h) this
      = Some (VObj (definition_object w' vs)).
Proof.
  intros Hw Hviews Hd.
  destruct (_getDefinition_least_fuel _ _ _ _ Hd) as (n & Hn & Hnone & Hsome).
  apply _getDefinition_Some in Hsome as (w0 & vs & Hw0 & Hvs & ->).
  assert (w0 = w) as -> by congruence.
  exists vs. split; [done|].
  apply (_getDefinition_mono (S n)); [lia|].
  apply _getDefinition_Some. exists w', vs.
  rewrite lookup_insert_eq, Hviews. split_and!; [done | | done].
  eapply Forall2_impl; [exact Hvs|]. intros [] v; simpl; auto.
  by apply _getDefinition_insert_other.
Qed.

(** ** Heaps a client reaches *)

Lemma with_props_id w : with_props (_props w) w = w.
Proof. by destruct w. Qed.

Lemma fresh_unallocated (h : Heap) : h !! fresh (dom h) = None.
Proof. apply not_elem_of_dom, is_fresh. Qed.

(** A constructor allocates a widget without attributes and children. *)
Lemma new_run c arg h :
  new c arg h
  = Normal (fresh (dom h))
      (<[fresh (dom h) :=
           mkWidget c
             (if c is BaseWidget then default_param (VBool false) arg else VBool false)
             (class_type c) [] []]> h).
Proof.
  destruct c; simpl; [done|..];
    unfold Text.constructor, Image.constructor, Color.constructor,
      Gradient.constructor, Divider.constructor, Hstack.constructor,
      Vstack.constructor, Zstack.constructor, Spacer.constructor,
      Hgrid.constructor, Vgrid.constructor, BaseWidget.constructor,
      alloc, modify, mbind, Js_bind, mret, Js_ret; simpl;
    rewrite lookup_insert_eq; simpl; by rewrite insert_insert_eq.
Qed.

(** An operation leaves the heap as it is or rewrites its receiver,
    keeping the class, [ordered] and [type], and the keys distinct. *)
Lemma perform_effect this op h :
  heap_of (perform this op h) = h
  ∨ ∃ w w', h !! this = Some w
      ∧ heap_of (perform this op h) = <[this := w']> h
      ∧ cls w' = cls w ∧ ordered w' = ordered w ∧ type w' = type w
      ∧ (NoDup (Map_keys (_props w)) → NoDup (Map_keys (_props w'))).
Proof.
  destruct (h !! this) as [w|] eqn:Hw.
  - destruct op as [m| |arr| | |fuel]; simpl.
    + destruct (invoke_effect this w h Hw m) as [name value r _|arr|]; simpl.
      * right. exists w, (with_props (Map_set name value (_props w)) w).
        split_and!; try done. simpl. apply Map_set_NoDup.
      * right. exists w, (with_views arr w). split_and!; done.
      * by left.
    + left. unfold read, mbind, Js_bind. by rewrite Hw.
    + right. exists w, (with_views arr w).
      unfold BaseWidget.set_views, modify, mbind, Js_bind. rewrite Hw.
      split_and!; done.
    + left. unfold read, mbind, Js_bind. by rewrite Hw.
    + left. unfold read, mbind, Js_bind. by rewrite Hw.
    + left. unfold BaseWidget.definition.
      by destruct (BaseWidget._getDefinition fuel h this).
  - left. destruct op as [m| |arr| | |fuel]; simpl;
      rewrite ?invoke_unallocated by done;
      unfold BaseWidget.set_views, BaseWidget.definition,
        read, modify, mbind, Js_bind; rewrite ?Hw; try done.
    by destruct (BaseWidget._getDefinition fuel h this).
Qed.

(** What holds of every widget of every heap a client program reaches:
    it holds of a new widget, and an operation keeps it. *)
Lemma run_invariant (P : Widget → Prop) cs :
  (∀ c arg, CNew c arg ∈ cs →
            P (mkWidget c
                 (if c is BaseWidget then default_param (VBool false) arg else VBool false)
                 (class_type c) [] [])) →
  (∀ w w', P w → cls w' = cls w → ordered w' = ordered w → type w' = type w →
           (NoDup (Map_keys (_props w)) → NoDup (Map_keys (_props w'))) → P w') →
  ∀ l w, run cs ∅ !! l = Some w → P w.
Proof.
  intros Hnew Hop. unfold run.
  induction cs as [|c cs IH] using rev_ind; simpl; [done|].
  rewrite foldl_app. simpl. intros l w.
  assert (∀ l w, foldl exec ∅ cs !! l = Some w → P w) as IH'.
  { apply IH. intros c0 arg Hin. apply Hnew, elem_of_app. by left. }
  destruct c as [c arg|this op]; simpl.
  - rewrite new_run. simpl. intros [[<- <-]|[_ Hl]]%lookup_insert_Some.
    + apply Hnew, elem_of_app. right. by apply list_elem_of_singleton.
    + eauto.
  - destruct (perform_effect this op (foldl exec ∅ cs))
      as [->|(w0 & w' & Hw0 & -> & ? & ? & ? & ?)]; [eauto|].
    intros [[<- <-]|[_ Hl]]%lookup_insert_Some; [|eauto].
    apply (Hop w0); eauto.
Qed.

(** ** The definition object *)

Lemma definition_object_type w vs :
  definition_object w vs !! "type" = Some (type w).
Proof.
  unfold definition_object.
  destruct (truthy (ordered w)), (bool_decide _); by simplify_map_eq.
Qed.

Lemma definition_object_attributes w vs :
  if truthy (ordered w)
  then definition_object w vs !! "modifiers" = Some (BaseWidget.modifiers w)
       ∧ definition_object w vs !! "props" = None
  else definition_object w vs !! "props" = Some (BaseWidget.props w)
       ∧ definition_object w vs !! "modifiers" = None.
Proof.
  unfold definition_object.
  destruct (truthy (ordered w)), (bool_decide _); by simplify_map_eq.
Qed.

Lemma definition_object_views w vs :
  definition_object w vs !! "views"
  = if bool_decide (length (_views w) ≠ 0) then Some (VArr vs) else None.
Proof.
  unfold definition_object, BaseWidget.views.
  destruct (truthy (ordered w)), (bool_decide _); by simplify_map_eq.
Qed.

(** The attribute field of a definition. *)
Lemma _getDefinition_attributes fuel h view w :
  h !! view = Some w →
  finite_depth fuel h view = true →
  ∃ o, BaseWidget._getDefinition fuel h view = Some (VObj o)
    ∧ (if truthy (ordered w)
       then o !! "modifiers" = Some (BaseWidget.modifiers w) ∧ o !! "props" = None
       else o !! "props" = Some (BaseWidget.props w) ∧ o !! "modifiers" = None).
Proof.
  intros Hw Hfin. apply _getDefinition_total in Hfin as [d Hd].
  destruct fuel as [|fuel]; [done|].
  pose proof Hd as Hd'.
  apply _getDefinition_Some in Hd' as (w0 & vs & Hw0 & _ & ->).
  assert (w0 = w) as -> by congruence.
  exists (definition_object w vs). split; [done | apply definition_object_attributes].
Qed.

(** C1: the definition of a widget has exactly one of the two attribute
    fields. When [ordered] is truthy it has [modifiers], the list the
    [modifiers] getter builds, and no [props]; otherwise it has [props],
    the object the [props] getter builds, and no [modifiers]. On an empty
    attribute store the two getters give [[]] and [{}]. *)
Theorem definition_props_xor_modifiers fuel h view w :
  h !! view = Some w →
  finite_depth fuel h view = true →
  ∃ o, BaseWidget._getDefinition fuel h view = Some (VObj o)
    ∧ (if truthy (ordered w)
       then o !! "modifiers" = Some (BaseWidget.modifiers w) ∧ o !! "props" = None
       else o !! "props" = Some (BaseWidget.props w) ∧ o !! "modifiers" = None)
    ∧ (_props w = [] →
       BaseWidget.modifiers w = VArr [] ∧ BaseWidget.props w = VObj ∅).
Proof.
  intros Hw Hfin.
  destruct (_getDefinition_attributes fuel h view w Hw Hfin) as (o & Hd & Hattr).
  exists o. split_and!; [done..|].
  unfold BaseWidget.modifiers, BaseWidget.props. by intros ->.
Qed.

Lemma definition_props_xor_modifiers_unordered :
  ∃ o, BaseWidget._getDefinition 1
         {[0 := mkWidget Divider (VBool false) (VStr "divider") [] []]} 0
       = Some (VObj o)
    ∧ o !! "props" = Some (VObj ∅) ∧ o !! "modifiers" = None.
Proof.
  destruct (definition_props_xor_modifiers 1
              {[0 := mkWidget Divider (VBool false) (VStr "divider") [] []]} 0
              (mkWidget Divider (VBool false) (VStr "divider") [] []))
    as (o & Hd & Hattr & _); [reflexivity | reflexivity |].
  exists o. split; [exact Hd | exact Hattr].
Defined.

Example definition_props_xor_modifiers_ordered :
  ∃ o, BaseWidget._getDefinition 1
         {[0 := mkWidget BaseWidget (VBool true) VUndefined [] []]} 0
       = Some (VObj o)
    ∧ o !! "modifiers" = Some (VArr []) ∧ o !! "props" = None.
Proof. eexists. by vm_compute. Qed.

(** C2: the definition has no [views] field when the widget has no
    children. Otherwise [views] is an array with one element per child, in
    the children's order: for a child that is a widget, the definition
    [_getDefinition] computes for it; for any other value, the value. *)
Theorem definition_views fuel h view w :
  h !! view = Some w →
  finite_depth (S fuel) h view = true →
  ∃ o, BaseWidget._getDefinition (S fuel) h view = Some (VObj o)
    ∧ (_views w = [] → o !! "views" = None)
    ∧ (_views w ≠ [] →
       ∃ vs, o !! "views" = Some (VArr vs)
         ∧ Forall2 (λ n v, match n with
                           | VRef l => BaseWidget._getDefinition fuel h l = Some v
                           | _ => v = n
                           end) (_views w) vs).
Proof.
  intros Hw Hfin. apply _getDefinition_total in Hfin as [d Hd].
  pose proof Hd as Hd'.
  apply _getDefinition_Some in Hd' as (w0 & vs & Hw0 & Hvs & ->).
  assert (w0 = w) as -> by congruence.
  exists (definition_object w vs). rewrite definition_object_views.
  split_and!; [done | by intros -> |].
  intros Hne. exists vs. split.
  - rewrite bool_decide_true; [done|]. by destruct (_views w).
  - eapply Forall2_impl; [exact Hvs|].
    intros [] v; simpl; try done; by intros [= <-].
Qed.

Lemma definition_views_zstack :
  ∃ o, BaseWidget._getDefinition 2 zstack_heap 1 = Some (VObj o)
    ∧ ([VRef 0; VStr "raw"] = [] → o !! "views" = None)
    ∧ ([VRef 0; VStr "raw"] ≠ [] →
       ∃ vs, o !! "views" = Some (VArr vs)
         ∧ Forall2 (λ n v, match n with
                           | VRef l => BaseWidget._getDefinition 1 zstack_heap l = Some v
                           | _ => v = n
                           end) [VRef 0; VStr "raw"] vs).
Proof.
  apply (definition_views 1 zstack_heap 1
           (mkWidget Zstack (VBool false) (VStr "zstack") [] [VRef 0; VStr "raw"]));
    reflexivity.
Defined.

Example definition_views_zstack_value :
  BaseWidget._getDefinition 2 zstack_heap 1
  = Some (VObj (<["type" := VStr "zstack"]> (<["props" := VObj ∅]>
      {["views" := VArr [VObj (<["type" := VStr "text"]>
                           {["props" := VObj {["text" := VStr "hi"]}]});
                         VStr "raw"] ]}))).
Proof. by vm_compute. Qed.

Example definition_views_none :
  ∃ o, BaseWidget._getDefinition 1 zstack_heap 0 = Some (VObj o)
    ∧ o !! "views" = None.
Proof. eexists. by vm_compute. Qed.

(** ** Setting attributes *)

Lemma invoke_setProps this w h name value :
  h !! this = Some w →
  invoke this (Method.setProps name value) h
  = Normal (VRef this) (<[this := with_props (Map_set name value (_props w)) w]> h).
Proof.
  intros Hw. unfold invoke, read, mbind, Js_bind. rewrite Hw. simpl.
  by apply setProps_run.
Qed.

(** A chain of [setProps] calls returns the widget it started on, with the
    attributes stored one after the other. *)
Lemma chain_setProps this w h (calls : list (string * Value)) :
  h !! this = Some w →
  chain (VRef this) (map (λ n, Method.setProps n.1 n.2) calls) h
  = Normal (VRef this)
      (<[this := with_props (foldl (λ m n, Map_set n.1 n.2 m) (_props w) calls) w]> h).
Proof.
  revert w h. induction calls as [|[k v] calls IH]; intros w h Hw; simpl.
  - rewrite with_props_id, insert_id by done. done.
  - unfold mbind, Js_bind. rewrite (invoke_setProps _ w) by done.
    rewrite (IH (with_props (Map_set k v (_props w)) w)) by apply lookup_insert_eq.
    by rewrite insert_insert_eq.
Qed.

(** The definition before and after the attribute store of a widget is
    replaced: the children's definitions are the same. *)
Lemma definition_with_props fuel h this w m :
  h !! this = Some w →
  finite_depth fuel h this = true →
  ∃ vs,
    BaseWidget._getDefinition fuel h this = Some (VObj (definition_object w vs))
    ∧ BaseWidget._getDefinition fuel (<[this := with_props m w]> h) this
      = Some (VObj (definition_object (with_props m w) vs)).
Proof.
  intros Hw Hfin. apply _getDefinition_total in Hfin as [d Hd].
  destruct (_getDefinition_insert fuel h this w (with_props m w) d Hw eq_refl Hd)
    as (vs & -> & Hd').
  by exists vs.
Qed.

(** The keys of every attribute store a client reaches are distinct. *)
Lemma run_NoDup cs l w :
  run cs ∅ !! l = Some w → NoDup (Map_keys (_props w)).
Proof.
  apply (run_invariant (λ w, NoDup (Map_keys (_props w)))).
  - intros. simpl. apply NoDup_nil_2.
  - auto.
Qed.

(** C3: on a widget whose [ordered] is falsy, setting [a], then [b], then
    [a] again leaves in [props] the last value written to [a] and the value
    of [b], over what [props] had before: [{a: va', b: vb}] on a new
    widget. The names of the attribute store are pairwise distinct in each
    heap a client reaches, before the calls and after them. *)
Theorem setProps_last_write_wins cs this w fuel a b va vb va' :
  run cs ∅ !! this = Some w →
  truthy (ordered w) = false →
  finite_depth fuel (run cs ∅) this = true →
  NoDup (Map_keys (_props w))
  ∧ ∃ h' w' o,
      chain (VRef this)
        [Method.setProps a va; Method.setProps b vb; Method.setProps a va']
        (run cs ∅) = Normal (VRef this) h'
      ∧ h' !! this = Some w'
      ∧ NoDup (Map_keys (_props w'))
      ∧ BaseWidget._getDefinition fuel h' this = Some (VObj o)
      ∧ o !! "props"
        = Some (VObj (<[a := va']> (<[b := vb]> (Object_fromEntries (_props w))))).
Proof.
  intros Hw Hord Hfin. pose proof (run_NoDup _ _ _ Hw) as Hnd.
  split; [done|].
  pose proof (chain_setProps this w (run cs ∅) [(a, va); (b, vb); (a, va')] Hw) as Hrun.
  simpl in Hrun.
  set (m := Map_set a va' (Map_set b vb (Map_set a va (_props w)))) in *.
  destruct (definition_with_props fuel _ this w m Hw Hfin) as (vs & _ & Hd).
  eexists _, (with_props m w), _. split_and!; [exact Hrun | apply lookup_insert_eq | | exact Hd |].
  - simpl. subst m. by do 3 apply Map_set_NoDup.
  - pose proof (definition_object_attributes (with_props m w) vs) as Hattr.
    simpl in Hattr. rewrite Hord in Hattr. destruct Hattr as [-> _].
    unfold BaseWidget.props, Map_entries. simpl. subst m. do 2 f_equal.
    rewrite !Object_fromEntries_set by (repeat apply Map_set_NoDup; done).
    apply map_eq. intros k.
    destruct (decide (k = a)) as [->|]; [by rewrite !lookup_insert_eq|].
    rewrite (lookup_insert_ne _ a) by done.
    rewrite (lookup_insert_ne (<[b:=vb]> _) a) by done.
    destruct (decide (k = b)) as [->|]; [by rewrite !lookup_insert_eq|].
    by rewrite !(lookup_insert_ne _ b), (lookup_insert_ne _ a) by done.
Qed.

Lemma setProps_last_write_wins_text :
  NoDup (@nil string)
  ∧ ∃ h' w' o,
      chain (VRef 0)
        [Method.setProps "a" (VNum 1); Method.setProps "b" (VNum 2);
         Method.setProps "a" (VNum 3)]
        (run [CNew Text VUndefined] ∅) = Normal (VRef 0) h'
      ∧ h' !! 0 = Some w'
      ∧ NoDup (Map_keys (_props w'))
      ∧ BaseWidget._getDefinition 1 h' 0 = Some (VObj o)
      ∧ o !! "props" = Some (VObj (<["a" := VNum 3]> (<["b" := VNum 2]> ∅))).
Proof.
  apply (setProps_last_write_wins [CNew Text VUndefined] 0
           (mkWidget Text (VBool false) (VStr "text") [] []) 1
           "a" "b" (VNum 1) (VNum 2) (VNum 3)); reflexivity.
Defined.

Lemma foldl_Map_set_snoc (m calls : list (string * Value)) :
  NoDup (Map_keys m ++ calls.*1) →
  foldl (λ m n, Map_set n.1 n.2 m) m calls = m ++ calls.
Proof.
  unfold Map_keys. revert m. induction calls as [|[k v] calls IH]; intros m Hnd; simpl.
  - by rewrite app_nil_r.
  - simpl in Hnd. rewrite Map_set_snoc.
    + rewrite IH; [by rewrite <- app_assoc|].
      rewrite fmap_app. simpl. by rewrite <- app_assoc.
    + apply NoDup_app in Hnd as (_ & Hdisj & _). intros Hin.
      apply (Hdisj k Hin). left.
Qed.

Lemma modifiers_with_props m w :
  BaseWidget.modifiers (with_props m w) = VArr (map (λ n, VObj {[n.1 := n.2]}) m).
Proof.
  reflexivity.
Qed.

(** C4: on a widget whose [ordered] is truthy, setting [x], then [y], then
    [x] again puts into [modifiers], after the records of the attributes
    set before, the record of [x] with the value written last and then the
    record of [y]: [[{x: vx'}, {y: vy}]] on a new widget. *)
Theorem modifiers_overwrite_keeps_position fuel h this w x y vx vy vx' :
  h !! this = Some w →
  truthy (ordered w) = true →
  finite_depth fuel h this = true →
  x ∉ Map_keys (_props w) → y ∉ Map_keys (_props w) → x ≠ y →
  ∃ h' o,
    chain (VRef this)
      [Method.setProps x vx; Method.setProps y vy; Method.setProps x vx'] h
    = Normal (VRef this) h'
    ∧ BaseWidget._getDefinition fuel h' this = Some (VObj o)
    ∧ o !! "modifiers"
      = Some (VArr (map (λ n, VObj {[n.1 := n.2]}) (_props w)
                    ++ [VObj {[x := vx']}; VObj {[y := vy]}])).
Proof.
  intros Hw Hord Hfin Hx Hy Hxy.
  pose proof (chain_setProps this w h [(x, vx); (y, vy); (x, vx')] Hw) as Hrun.
  simpl in Hrun.
  set (m := Map_set x vx' (Map_set y vy (Map_set x vx (_props w)))) in *.
  destruct (definition_with_props fuel _ this w m Hw Hfin) as (vs & _ & Hd).
  eexists _, _. split_and!; [exact Hrun | exact Hd |].
  pose proof (definition_object_attributes (with_props m w) vs) as Hattr.
  simpl in Hattr. rewrite Hord in Hattr. destruct Hattr as [-> _].
  rewrite modifiers_with_props. do 2 f_equal. subst m.
  rewrite (Map_set_snoc (_props w) x) by done.
  rewrite (Map_set_snoc _ y).
  2:{ unfold Map_keys. rewrite fmap_app. simpl.
      intros [?|Hin]%elem_of_app; [done|].
      apply list_elem_of_singleton in Hin. congruence. }
  assert (Map_set x vx' ((_props w ++ [(x, vx)]) ++ [(y, vy)])
          = _props w ++ [(x, vx'); (y, vy)]) as ->.
  { rewrite <- app_assoc. simpl. clear -Hx.
    unfold Map_keys in Hx. induction (_props w) as [|[k v] m IH]; simpl.
    - by rewrite String.eqb_refl.
    - simpl in Hx. apply not_elem_of_cons in Hx as [Hne Hx].
      destruct (String.eqb_spec k x); [congruence|]. by rewrite IH. }
  by rewrite map_app.
Qed.

Lemma modifiers_overwrite_keeps_position_new :
  ∃ h' o,
    chain (VRef 0)
      [Method.setProps "x" (VNum 1); Method.setProps "y" (VNum 2);
       Method.setProps "x" (VNum 3)]
      {[0 := mkWidget BaseWidget (VBool true) VUndefined [] []]}
    = Normal (VRef 0) h'
    ∧ BaseWidget._getDefinition 1 h' 0 = Some (VObj o)
    ∧ o !! "modifiers"
      = Some (VArr [VObj {["x" := VNum 3]}; VObj {["y" := VNum 2]}]).
Proof.
  apply (modifiers_overwrite_keeps_position 1
           {[0 := mkWidget BaseWidget (VBool true) VUndefined [] []]} 0
           (mkWidget BaseWidget (VBool true) VUndefined [] [])
           "x" "y" (VNum 1) (VNum 2) (VNum 3));
    first [reflexivity | apply not_elem_of_nil | discriminate].
Defined.

(** C5: on a widget whose [ordered] is truthy, a chain of [setProps] calls
    on names that are pairwise distinct and not set before adds to
    [modifiers] one single-key record per call, in the order of the calls. *)
Theorem modifiers_in_call_order fuel h this w (calls : list (string * Value)) :
  h !! this = Some w →
  truthy (ordered w) = true →
  finite_depth fuel h this = true →
  NoDup (Map_keys (_props w) ++ calls.*1) →
  ∃ h' o,
    chain (VRef this) (map (λ n, Method.setProps n.1 n.2) calls) h
    = Normal (VRef this) h'
    ∧ BaseWidget._getDefinition fuel h' this = Some (VObj o)
    ∧ o !! "modifiers"
      = Some (VArr (map (λ n, VObj {[n.1 := n.2]}) (_props w ++ calls))).
Proof.
  intros Hw Hord Hfin Hnd.
  pose proof (chain_setProps this w h calls Hw) as Hrun.
  rewrite foldl_Map_set_snoc in Hrun by done.
  destruct (definition_with_props fuel _ this w (_props w ++ calls) Hw Hfin)
    as (vs & _ & Hd).
  eexists _, _. split_and!; [exact Hrun | exact Hd |].
  pose proof (definition_object_attributes (with_props (_props w ++ calls) w) vs)
    as Hattr.
  simpl in Hattr. rewrite Hord in Hattr. destruct Hattr as [-> _].
  by rewrite modifiers_with_props.
Qed.

Lemma modifiers_in_call_order_opacity_blur :
  ∃ h' o,
    chain (VRef 0)
      [Method.setProps "opacity" (VNum 0.5); Method.setProps "blur" (VNum 3)]
      {[0 := mkWidget BaseWidget (VBool true) VUndefined [] []]}
    = Normal (VRef 0) h'
    ∧ BaseWidget._getDefinition 1 h' 0 = Some (VObj o)
    ∧ o !! "modifiers"
      = Some (VArr [VObj {["opacity" := VNum 0.5]}; VObj {["blur" := VNum 3]}]).
Proof.
  apply (modifiers_in_call_order 1
           {[0 := mkWidget BaseWidget (VBool true) VUndefined [] []]} 0
           (mkWidget BaseWidget (VBool true) VUndefined [] [])
           [("opacity", VNum 0.5); ("blur", VNum 3)]);
    first [reflexivity | apply (bool_decide_unpack _); vm_compute; exact I].
Defined.

Example modifiers_not_reversed :
  VArr [VObj {["opacity" := VNum 0.5]}; VObj {["blur" := VNum 3]}]
  ≠ VArr [VObj {["blur" := VNum 3]}; VObj {["opacity" := VNum 0.5]}].
Proof.
  intros Heq. discriminate Heq.
Qed.

(** ** What the setters return *)

Section returns.
Context (this : nat) (w : Widget) (h : Heap) (Hthis : h !! this = Some w).

Lemma setter_returns name value r0 r h' :
  ((BaseWidget._setProps this name value;; mret r0) : Js Value) h = Normal r h' →
  r = r0.
Proof using Hthis. rewrite (setter_run _ _ _ Hthis). by intros [= <- _]. Qed.

Lemma frame_returns param r h' :
  BaseWidget.frame this param h = Normal r h' → r = VRef this.
Proof using Hthis.
  unfold BaseWidget.frame.
  destruct (destructurable (default_param (VObj ∅) param)); [|done].
  unfold mbind at 1. unfold Js_bind at 1. apply setter_returns.
Qed.

Lemma border_returns param r h' :
  BaseWidget.border this param h = Normal r h' → r = VRef this.
Proof using Hthis.
  unfold BaseWidget.border. destruct (destructurable param); [|done].
  unfold mbind at 1. unfold Js_bind at 1. apply setter_returns.
Qed.

Lemma clipped_returns b a r h' :
  BaseWidget.clipped this b a h = Normal r h' → r = VRef this.
Proof using Hthis.
  unfold BaseWidget.clipped. destruct (truthy a); apply setter_returns.
Qed.

(** Every method but [layoutPriority] returns [this] when it returns. *)
Lemma invoke_returns_this m r h' :
  (∀ num, m ≠ Method.layoutPriority num) →
  invoke this m h = Normal r h' → r = VRef this.
Proof using Hthis.
  intros Hm. unfold invoke, read, mbind, Js_bind. rewrite Hthis.
  destruct (resolve (cls w) m) as [f|] eqn:Hf; [|done].
  destruct m; simpl in Hf;
    try (by exfalso; eapply Hm);
    try (injection Hf as <-;
         first [ apply setter_returns | apply frame_returns | apply border_returns
               | apply clipped_returns
               | rewrite (setViews_run _ _ _ Hthis); by intros [= <- _] ]);
    destruct (cls w); try done; injection Hf as <-; apply setter_returns.
Qed.

End returns.

(** C6: [layoutPriority] stores its attribute and returns [undefined], not
    the widget: on a new [Text], [layoutPriority(1)] returns [undefined] and
    the chain [layoutPriority(1).padding(10)] throws a [TypeError], where
    [padding(10).layoutPriority(1)] runs. *)
Theorem layoutPriority_returns_undefined :
  let h := heap_of (new Text VUndefined ∅) in
  (∃ h', invoke 0 (Method.layoutPriority (VNum 1)) h = Normal VUndefined h'
         ∧ (_props <$> h' !! 0) = Some [("layoutPriority", VNum 1)])
  ∧ (∃ h', chain (VRef 0)
             [Method.layoutPriority (VNum 1); Method.padding (VNum 10)] h
           = Throw TypeError h')
  ∧ (∃ h', chain (VRef 0)
             [Method.padding (VNum 10); Method.layoutPriority (VNum 1)] h
           = Normal VUndefined h').
Proof.
  split_and!; eexists; vm_compute; try split; reflexivity.
Qed.

(** ** Serialising, overwriting, serialising again *)

Lemma VObj_inj (o1 o2 : gmap string Value) : VObj o1 = VObj o2 → o1 = o2.
Proof.
  intros Heq.
  apply (f_equal (λ v, match v with VObj o => o | _ => ∅ end)) in Heq. exact Heq.
Qed.

Lemma VArr_inj (l1 l2 : list Value) : VArr l1 = VArr l2 → l1 = l2.
Proof.
  intros Heq.
  apply (f_equal (λ v, match v with VArr l => l | _ => [] end)) in Heq. exact Heq.
Qed.

Lemma definition_object_other w w' vs (field : string) :
  type w' = type w → ordered w' = ordered w → _views w' = _views w →
  field ≠ (if truthy (ordered w) then "modifiers" else "props") →
  definition_object w' vs !! field = definition_object w vs !! field.
Proof.
  intros Htype Hord Hviews. unfold definition_object, BaseWidget.views.
  rewrite Htype, Hord, Hviews.
  destruct (truthy (ordered w)), (bool_decide _); intros Hfield;
    rewrite !lookup_insert; repeat case_decide; congruence.
Qed.

(** What [_getDefinition] computes before and after one attribute is
    overwritten with a different value. *)
Lemma _getDefinition_after_overwrite cs this w fuel name v value :
  run cs ∅ !! this = Some w →
  finite_depth fuel (run cs ∅) this = true →
  Map_get name (_props w) = Some v →
  value ≠ v →
  ∃ h' o1 o2,
    BaseWidget._getDefinition fuel (run cs ∅) this = Some (VObj o1)
    ∧ BaseWidget.setProps this name value (run cs ∅) = Normal (VRef this) h'
    ∧ BaseWidget._getDefinition fuel h' this = Some (VObj o2)
    ∧ o1 ≠ o2
    ∧ (∀ field : string,
         field ≠ (if truthy (ordered w) then "modifiers" else "props") →
         o2 !! field = o1 !! field)
    ∧ (if truthy (ordered w)
       then ∃ ms i,
              o1 !! "modifiers" = Some (VArr ms)
              ∧ ms !! i = Some (VObj {[name := v]})
              ∧ o2 !! "modifiers"
                = Some (VArr (<[i := VObj {[name := value]}]> ms))
       else ∃ p,
              o1 !! "props" = Some (VObj p)
              ∧ p !! name = Some v
              ∧ o2 !! "props" = Some (VObj (<[name := value]> p))).
Proof.
  intros Hw Hfin Hget Hne. pose proof (run_NoDup _ _ _ Hw) as Hnd.
  set (w' := with_props (Map_set name value (_props w)) w).
  destruct (definition_with_props fuel _ this w (Map_set name value (_props w)) Hw Hfin)
    as (vs & Hd1 & Hd2). fold w' in Hd2.
  pose proof (definition_object_attributes w vs) as Hattr1.
  pose proof (definition_object_attributes w' vs) as Hattr2.
  change (ordered w') with (ordered w) in Hattr2.
  assert (if truthy (ordered w)
       then ∃ ms i,
              definition_object w vs !! "modifiers" = Some (VArr ms)
              ∧ ms !! i = Some (VObj {[name := v]})
              ∧ definition_object w' vs !! "modifiers"
                = Some (VArr (<[i := VObj {[name := value]}]> ms))
       else ∃ p,
              definition_object w vs !! "props" = Some (VObj p)
              ∧ p !! name = Some v
              ∧ definition_object w' vs !! "props"
                = Some (VObj (<[name := value]> p))) as Hchange.
  { destruct (truthy (ordered w)).
    - destruct Hattr1 as [-> _], Hattr2 as [-> _].
      destruct (Map_set_overwrite _ _ _ value Hget) as (i & Hi & Hset).
      exists (map (λ n, VObj {[n.1 := n.2]}) (_props w)), i.
      split_and!; [done | |].
      + rewrite list_lookup_fmap, Hi. done.
      + unfold w'. rewrite modifiers_with_props, Hset.
        by rewrite list_fmap_insert.
    - destruct Hattr1 as [-> _], Hattr2 as [-> _].
      exists (Object_fromEntries (_props w)). split_and!; [done | |].
      + by rewrite Object_fromEntries_lookup.
      + unfold BaseWidget.props, Map_entries, w'. simpl.
        by rewrite Object_fromEntries_set. }
  exists (<[this := w']> (run cs ∅)), (definition_object w vs), (definition_object w' vs).
  split_and!; [done | by apply setProps_run | done | | | done].
  - intros Heq. rewrite <- Heq in Hchange. destruct (truthy (ordered w)).
    + destruct Hchange as (ms & i & Hms & Hi & Hms').
      rewrite Hms in Hms'. apply (inj Some), VArr_inj in Hms'.
      pose proof (lookup_lt_Some _ _ _ Hi) as Hlt.
      rewrite Hms', list_lookup_insert_eq in Hi by done.
      apply (inj Some), VObj_inj in Hi. apply (f_equal (lookup name)) in Hi.
      rewrite !lookup_singleton_eq in Hi. congruence.
    + destruct Hchange as (p & Hp & Hv & Hp').
      rewrite Hp in Hp'. apply (inj Some), VObj_inj in Hp'.
      rewrite Hp', lookup_insert_eq in Hv. congruence.
  - intros field Hfield. by apply definition_object_other.
Qed.

(** C7: the [definition] getter computes the definition from the widget's
    state at each request. In a heap a client reaches, reading
    [definition], overwriting one attribute with a different value and
    reading [definition] again gives two definitions that differ: the
    second has the new value where the first has the old one (in [props],
    or in the record at the attribute's place in [modifiers]), and every
    other field is the same. Neither read changes the heap. *)
Theorem definition_not_cached cs this w fuel name v value :
  run cs ∅ !! this = Some w →
  finite_depth fuel (run cs ∅) this = true →
  Map_get name (_props w) = Some v →
  value ≠ v →
  ∃ h' o1 o2,
    BaseWidget.definition fuel this (run cs ∅) = Normal (VObj o1) (run cs ∅)
    ∧ BaseWidget.setProps this name value (run cs ∅) = Normal (VRef this) h'
    ∧ BaseWidget.definition fuel this h' = Normal (VObj o2) h'
    ∧ o1 ≠ o2
    ∧ (∀ field : string,
         field ≠ (if truthy (ordered w) then "modifiers" else "props") →
         o2 !! field = o1 !! field)
    ∧ (if truthy (ordered w)
       then ∃ ms i,
              o1 !! "modifiers" = Some (VArr ms)
              ∧ ms !! i = Some (VObj {[name := v]})
              ∧ o2 !! "modifiers"
                = Some (VArr (<[i := VObj {[name := value]}]> ms))
       else ∃ p,
              o1 !! "props" = Some (VObj p)
              ∧ p !! name = Some v
              ∧ o2 !! "props" = Some (VObj (<[name := value]> p))).
Proof.
  intros Hw Hfin Hget Hne.
  destruct (_getDefinition_after_overwrite cs this w fuel name v value
              Hw Hfin Hget Hne)
    as (h' & o1 & o2 & Hd1 & Hset & Hd2 & Hdiff & Hother & Hchange).
  exists h', o1, o2. unfold BaseWidget.definition. rewrite Hd1, Hd2.
  split_and!; done.
Qed.

Lemma definition_not_cached_text :
  ∃ h' o1 o2,
    BaseWidget.definition 1 0
      (run [CNew Text VUndefined; CDo 0 (OCall (Method.text (VStr "hi")))] ∅)
    = Normal (VObj o1)
        (run [CNew Text VUndefined; CDo 0 (OCall (Method.text (VStr "hi")))] ∅)
    ∧ BaseWidget.setProps 0 "text" (VStr "bye")
        (run [CNew Text VUndefined; CDo 0 (OCall (Method.text (VStr "hi")))] ∅)
      = Normal (VRef 0) h'
    ∧ BaseWidget.definition 1 0 h' = Normal (VObj o2) h'
    ∧ o1 ≠ o2
    ∧ (∀ field : string, field ≠ "props" → o2 !! field = o1 !! field)
    ∧ ∃ p, o1 !! "props" = Some (VObj p)
           ∧ p !! "text" = Some (VStr "hi")
           ∧ o2 !! "props" = Some (VObj (<["text" := VStr "bye"]> p)).
Proof.
  apply (definition_not_cached
           [CNew Text VUndefined; CDo 0 (OCall (Method.text (VStr "hi")))] 0
           (mkWidget Text (VBool false) (VStr "text") [("text", VStr "hi")] [])
           1 "text" (VStr "hi") (VStr "bye"));
    first [reflexivity | discriminate].
Defined.

(** The two reads as a client makes them, through the accessor. *)
Example definition_read_twice :
  ∃ h1 h2,
    perform 0 (OGetDefinition 1)
      (run [CNew Text VUndefined; CDo 0 (OCall (Method.text (VStr "hi")))] ∅)
    = Normal (VObj (<["type" := VStr "text"]>
                      {["props" := VObj {["text" := VStr "hi"]}]})) h1
    ∧ perform 0 (OGetDefinition 1)
        (run [CNew Text VUndefined; CDo 0 (OCall (Method.text (VStr "hi")));
              CDo 0 (OGetDefinition 1);
              CDo 0 (OCall (Method.text (VStr "bye")))] ∅)
      = Normal (VObj (<["type" := VStr "text"]>
                        {["props" := VObj {["text" := VStr "bye"]}]})) h2.
Proof. eexists _, _. split; by vm_compute. Qed.

(** ** What never changes *)

(** C8: no operation on a widget (a method call, reading [views], [props],
    [modifiers] or [definition], assigning [views]) changes the [type] or
    the [ordered] flag, or the class, of any widget in the heap. *)
Theorem type_and_ordered_unchanged this op h l w :
  h !! l = Some w →
  ∃ w', heap_of (perform this op h) !! l = Some w'
    ∧ type w' = type w ∧ ordered w' = ordered w ∧ cls w' = cls w.
Proof.
  intros Hl.
  destruct (perform_effect this op h)
    as [->|(w0 & w' & Hw0 & -> & ? & ? & ? & _)]; [by exists w|].
  destruct (decide (l = this)) as [->|Hne].
  - assert (w0 = w) as -> by congruence.
    exists w'. by rewrite lookup_insert_eq.
  - exists w. by rewrite lookup_insert_ne.
Qed.

Lemma type_and_ordered_unchanged_frame :
  ∃ w', heap_of (perform 0 (OCall (Method.frame (VObj {["width" := VNum 10]})))
                   {[0 := mkWidget Text (VBool false) (VStr "text") [] []]}) !! 0
        = Some w'
    ∧ type w' = VStr "text" ∧ ordered w' = VBool false ∧ cls w' = Text.
Proof.
  apply (type_and_ordered_unchanged 0
           (OCall (Method.frame (VObj {["width" := VNum 10]})))
           {[0 := mkWidget Text (VBool false) (VStr "text") [] []]} 0
           (mkWidget Text (VBool false) (VStr "text") [] [])).
  reflexivity.
Defined.

(** C9: a client that constructs exported classes only reaches no widget
    whose [ordered] is other than [false]: every widget is of an exported
    class, and its definition has [props], the object the [props] getter
    builds, and no [modifiers]. *)
Theorem exports_never_ordered cs l w :
  forallb uses_exports cs = true →
  run cs ∅ !! l = Some w →
  cls w ∈ module_exports
  ∧ ordered w = VBool false
  ∧ ∀ fuel, finite_depth fuel (run cs ∅) l = true →
      ∃ o, BaseWidget._getDefinition fuel (run cs ∅) l = Some (VObj o)
        ∧ o !! "props" = Some (BaseWidget.props w)
        ∧ o !! "modifiers" = None.
Proof.
  intros Hcs Hl.
  assert (cls w ∈ module_exports ∧ ordered w = VBool false) as [Hcls Hord].
  { revert l w Hl.
    apply (run_invariant (λ w, cls w ∈ module_exports ∧ ordered w = VBool false)).
    - intros c arg Hin. rewrite forallb_forall in Hcs.
      apply list_elem_of_In, Hcs in Hin. simpl in Hin.
      split; [by apply bool_decide_eq_true in Hin|].
      simpl. by destruct c.
    - intros w0 w' [? ?] -> -> _ _. done. }
  split_and!; [done..|]. intros fuel Hfin.
  destruct (_getDefinition_attributes fuel _ l w Hl Hfin) as (o & Hd & Hattr).
  rewrite Hord in Hattr. by exists o.
Qed.

Lemma exports_never_ordered_image :
  Image ∈ module_exports
  ∧ ∃ o, BaseWidget._getDefinition 1
           (run [CNew Image VUndefined; CDo 0 (OCall (Method.opacity (VNum 0.5)))] ∅) 0
         = Some (VObj o)
      ∧ o !! "props" = Some (VObj {["opacity" := VNum 0.5]})
      ∧ o !! "modifiers" = None.
Proof.
  destruct (exports_never_ordered
              [CNew Image VUndefined; CDo 0 (OCall (Method.opacity (VNum 0.5)))] 0
              (mkWidget Image (VBool false) (VStr "image") [("opacity", VNum 0.5)] []))
    as (Hcls & _ & Hdef); [reflexivity | reflexivity |].
  split; [exact Hcls | apply (Hdef 1); reflexivity].
Defined.

(** ** clipped *)

(** C10: [clipped(b, a)] returns the widget and stores under ["clipped"]
    the record [{antialiased: true}] when [a] is truthy, whatever [b] is;
    otherwise it stores [b], or [true] when [b] is left out. The other
    attributes keep their values. *)
Theorem clipped_stores this w h b a :
  h !! this = Some w →
  ∃ w',
    BaseWidget.clipped this b a h = Normal (VRef this) (<[this := w']> h)
    ∧ Map_get "clipped" (_props w')
      = Some (if truthy a then VObj {["antialiased" := VBool true]}
              else match b with VUndefined => VBool true | _ => b end)
    ∧ ∀ k, k ≠ "clipped" → Map_get k (_props w') = Map_get k (_props w).
Proof.
  intros Hw. unfold BaseWidget.clipped.
  destruct (truthy a); simpl; rewrite (setter_run _ _ _ Hw);
    eexists; (split_and!; [reflexivity | | ]); simpl;
    try (rewrite Map_get_set, decide_True by done; done);
    intros k Hk; by rewrite Map_get_set, decide_False by done.
Qed.

Lemma clipped_stores_false_true :
  ∃ w',
    BaseWidget.clipped 0 (VBool false) (VBool true)
      {[0 := mkWidget Image (VBool false) (VStr "image") [] []]}
    = Normal (VRef 0) (<[0 := w']> {[0 := mkWidget Image (VBool false) (VStr "image") [] []]})
    ∧ Map_get "clipped" (_props w') = Some (VObj {["antialiased" := VBool true]})
    ∧ ∀ k, k ≠ "clipped" → Map_get k (_props w') = Map_get k [].
Proof.
  apply (clipped_stores 0 (mkWidget Image (VBool false) (VStr "image") [] [])
           {[0 := mkWidget Image (VBool false) (VStr "image") [] []]}
           (VBool false) (VBool true)).
  reflexivity.
Defined.

Example clipped_defaults_to_true :
  ∃ h', BaseWidget.clipped 0 VUndefined VUndefined
          {[0 := mkWidget Image (VBool false) (VStr "image") [] []]}
        = Normal (VRef 0) h'
    ∧ (_props <$> h' !! 0) = Some [("clipped", VBool true)].
Proof. eexists. by vm_compute. Qed.

(** * Further properties of the builder *)

(** ** Chains *)

(** X1: a chain of calls to the documented methods, those of [Method.t]
    ([setViews], [setProps] and the attribute setters of the classes), none
    of which is [layoutPriority], returns the widget it started on when it
    runs to its end. The helpers [_setProps] and [_getDefinition] are not
    among these methods: [_setProps] returns [undefined] (see
    [_setProps_run]) and [_getDefinition] a definition. *)
Theorem chain_returns_receiver this ms h r h' :
  forallb (λ m, negb (is_layoutPriority m)) ms = true →
  chain (VRef this) ms h = Normal r h' →
  r = VRef this.
Proof.
  revert h. induction ms as [|m ms IH]; intros h Hms; simpl.
  - by intros [= <- _].
  - simpl in Hms. apply andb_prop in Hms as [Hm Hms].
    unfold mbind, Js_bind. destruct (h !! this) as [w|] eqn:Hw.
    + destruct (invoke this m h) as [r1 h1|e h1] eqn:Hrun; [|done].
      assert (r1 = VRef this) as ->.
      { apply (invoke_returns_this this w h Hw m r1 h1); [|done].
        intros num ->. done. }
      by apply IH.
    + by rewrite invoke_unallocated.
Qed.

Lemma chain_returns_receiver_text :
  VRef 0 = VRef 0.
Proof.
  apply (chain_returns_receiver 0
           [Method.text (VStr "hi"); Method.bold VUndefined; Method.padding (VNum 10)]
           (heap_of (new Text VUndefined ∅)) (VRef 0)
           {[0 := mkWidget Text (VBool false) (VStr "text")
                    [("text", VStr "hi"); ("bold", VBool true); ("padding", VNum 10)]
                    []]});
    reflexivity.
Defined.

(** X2: [layoutPriority] stores its attribute, and any call chained after
    it throws a [TypeError]; the attribute stays stored. *)
Theorem layoutPriority_breaks_chain this w h num m ms :
  h !! this = Some w →
  chain (VRef this) (Method.layoutPriority num :: m :: ms) h
  = Throw TypeError
      (<[this := with_props (Map_set "layoutPriority" num (_props w)) w]> h).
Proof.
  intros Hw. simpl. unfold mbind at 1. unfold Js_bind at 1.
  unfold invoke, read. unfold mbind at 1. unfold Js_bind at 1. rewrite Hw. simpl.
  unfold BaseWidget.layoutPriority. by rewrite (setter_run _ _ _ Hw).
Qed.

Lemma layoutPriority_breaks_chain_spacer :
  chain (VRef 0) [Method.layoutPriority (VNum 1); Method.minLength (VNum 4)]
    {[0 := mkWidget Spacer (VBool false) (VStr "spacer") [] []]}
  = Throw TypeError
      (<[0 := mkWidget Spacer (VBool false) (VStr "spacer")
                [("layoutPriority", VNum 1)] []]>
         {[0 := mkWidget Spacer (VBool false) (VStr "spacer") [] []]}).
Proof.
  apply (layoutPriority_breaks_chain 0
           (mkWidget Spacer (VBool false) (VStr "spacer") [] [])
           {[0 := mkWidget Spacer (VBool false) (VStr "spacer") [] []]}
           (VNum 1) (Method.minLength (VNum 4)) []).
  reflexivity.
Defined.

(** ** Exceptions and other widgets *)

(** X3: an operation that throws has written nothing: the heap is the one
    it was called in. A method call throws a [TypeError] only; reading
    [definition] throws a [RangeError] only. *)
Theorem perform_throw_unchanged this op h e h' :
  perform this op h = Throw e h' →
  h' = h
  ∧ e = match op with OGetDefinition _ => RangeError | _ => TypeError end.
Proof.
  destruct op as [m| |arr| | |fuel]; simpl.
  - destruct (h !! this) as [w|] eqn:Hw.
    + destruct (invoke_effect this w h Hw m); [done..|]. by intros [= <- <-].
    + rewrite invoke_unallocated by done. by intros [= <- <-].
  - unfold read, mbind, Js_bind.
    destruct (h !! this); [done|]. by intros [= <- <-].
  - unfold BaseWidget.set_views, modify, mbind, Js_bind.
    destruct (h !! this); [done|]. by intros [= <- <-].
  - unfold read, mbind, Js_bind.
    destruct (h !! this); [done|]. by intros [= <- <-].
  - unfold read, mbind, Js_bind.
    destruct (h !! this); [done|]. by intros [= <- <-].
  - unfold BaseWidget.definition.
    destruct (BaseWidget._getDefinition fuel h this); [done|]. by intros [= <- <-].
Qed.

Lemma perform_throw_unchanged_border :
  {[0 := mkWidget Text (VBool false) (VStr "text") [] []]}
  = ({[0 := mkWidget Text (VBool false) (VStr "text") [] []]} : Heap)
  ∧ TypeError = TypeError.
Proof.
  apply (perform_throw_unchanged 0 (OCall (Method.border VUndefined))
           {[0 := mkWidget Text (VBool false) (VStr "text") [] []]}).
  reflexivity.
Defined.

(** X4: an operation on one widget allocates and frees nothing, and leaves
    every other widget of the heap as it is. *)
Theorem perform_other_widgets this op h :
  dom (heap_of (perform this op h)) = dom h
  ∧ ∀ l, l ≠ this → heap_of (perform this op h) !! l = h !! l.
Proof.
  destruct (perform_effect this op h)
    as [->|(w0 & w' & Hw0 & -> & _)]; [done|].
  split.
  - by apply dom_insert_lookup_L.
  - intros l Hne. by rewrite lookup_insert_ne.
Qed.

(** ** frame and border *)

Lemma param_field_insert_props h this w m param k :
  h !! this = Some w →
  param_field (<[this := with_props m w]> h) param k = param_field h param k.
Proof.
  intros Hw. destruct param; simpl; try done.
  destruct (decide (l = this)) as [->|Hne].
  - by rewrite lookup_insert_eq, Hw.
  - by rewrite lookup_insert_ne.
Qed.

Lemma frame_run this w h param :
  h !! this = Some w →
  destructurable (default_param (VObj ∅) param) = true →
  ∃ o, BaseWidget.frame this param h
       = Normal (VRef this)
           (<[this := with_props (Map_set "frame" (VObj o) (_props w)) w]> h)
    ∧ dom o = list_to_set frame_names
    ∧ (∀ k, k ∈ frame_names →
            o !! k = Some (param_field h (default_param (VObj ∅) param) k)).
Proof.
  intros Hw Hd. unfold BaseWidget.frame. rewrite Hd.
  unfold mbind at 1. unfold Js_bind at 1. rewrite (setter_run _ _ _ Hw).
  eexists. split_and!; [reflexivity | |].
  - rewrite !dom_insert_L, dom_empty_L. unfold frame_names. simpl.
    apply set_eq. intros x. rewrite !elem_of_union, !elem_of_singleton.
    rewrite elem_of_empty. tauto.
  - intros k Hk. unfold frame_names in Hk.
    repeat (apply elem_of_cons in Hk as [->|Hk]; [by simplify_map_eq|]).
    by apply elem_of_nil in Hk.
Qed.

(** X5: [frame(null)] throws a [TypeError]. On any other parameter [frame]
    returns the widget and stores under ["frame"] a record with exactly the
    nine names it destructures, each holding what the parameter has under
    that name, [undefined] where it has nothing; [frame()] is [frame({})].
    Whatever else the parameter holds is dropped. *)
Theorem frame_stores this w h param :
  h !! this = Some w →
  match param with
  | VNull => BaseWidget.frame this param h = Throw TypeError h
  | _ =>
      ∃ o, BaseWidget.frame this param h
           = Normal (VRef this)
               (<[this := with_props (Map_set "frame" (VObj o) (_props w)) w]> h)
        ∧ dom o = list_to_set frame_names
        ∧ (∀ k, k ∈ frame_names →
                o !! k = Some (param_field h (default_param (VObj ∅) param) k))
  end.
Proof.
  intros Hw. destruct param; try (by apply frame_run). reflexivity.
Qed.

Lemma frame_stores_width :
  ∃ o, BaseWidget.frame 0 (VObj (<["width" := VNum 10]> {["colour" := VStr "red"]}))
         {[0 := mkWidget Text (VBool false) (VStr "text") [] []]}
       = Normal (VRef 0)
           (<[0 := with_props (Map_set "frame" (VObj o) [])
                     (mkWidget Text (VBool false) (VStr "text") [] [])]>
              {[0 := mkWidget Text (VBool false) (VStr "text") [] []]})
    ∧ dom o = list_to_set frame_names
    ∧ o !! "width" = Some (VNum 10)
    ∧ o !! "height" = Some VUndefined
    ∧ o !! "colour" = None.
Proof.
  destruct (frame_stores 0 (mkWidget Text (VBool false) (VStr "text") [] [])
              {[0 := mkWidget Text (VBool false) (VStr "text") [] []]}
              (VObj (<["width" := VNum 10]> {["colour" := VStr "red"]})))
    as (o & Hrun & Hdom & Hget); [reflexivity|].
  exists o. split_and!; [exact Hrun | exact Hdom | | |].
  - apply (Hget "width"). unfold frame_names. apply list_elem_of_here.
  - apply (Hget "height"). unfold frame_names.
    apply list_elem_of_further, list_elem_of_here.
  - apply not_elem_of_dom. rewrite Hdom. unfold frame_names. simpl.
    apply (bool_decide_unpack _). vm_compute. exact I.
Defined.

(** X6: [border(undefined)] and [border(null)] throw a [TypeError]. On any
    other parameter [border] returns the widget and stores under ["border"]
    a record with exactly the names [color] and [width], read off the
    parameter. *)
Theorem border_stores this w h param :
  h !! this = Some w →
  match param with
  | VUndefined | VNull => BaseWidget.border this param h = Throw TypeError h
  | _ =>
      ∃ o, BaseWidget.border this param h
           = Normal (VRef this)
               (<[this := with_props (Map_set "border" (VObj o) (_props w)) w]> h)
        ∧ dom o = list_to_set border_names
        ∧ (∀ k, k ∈ border_names → o !! k = Some (param_field h param k))
  end.
Proof.
  intros Hw.
  assert (destructurable param = true →
          ∃ o, BaseWidget.border this param h
               = Normal (VRef this)
                   (<[this := with_props (Map_set "border" (VObj o) (_props w)) w]> h)
            ∧ dom o = list_to_set border_names
            ∧ (∀ k, k ∈ border_names → o !! k = Some (param_field h param k)))
    as Hstores.
  { intros Hd. unfold BaseWidget.border. rewrite Hd.
    unfold mbind at 1. unfold Js_bind at 1. rewrite (setter_run _ _ _ Hw).
    eexists. split_and!; [reflexivity | |].
    - rewrite !dom_insert_L, dom_empty_L. unfold border_names. simpl.
      apply set_eq. intros x. rewrite !elem_of_union, !elem_of_singleton.
      rewrite elem_of_empty. tauto.
    - intros k Hk. unfold border_names in Hk.
      repeat (apply elem_of_cons in Hk as [->|Hk]; [by simplify_map_eq|]).
      by apply elem_of_nil in Hk. }
  destruct param; try (by apply Hstores); reflexivity.
Qed.

Lemma border_stores_undefined :
  BaseWidget.border 0 VUndefined
    {[0 := mkWidget Image (VBool false) (VStr "image") [] []]}
  = Throw TypeError {[0 := mkWidget Image (VBool false) (VStr "image") [] []]}.
Proof.
  apply (border_stores 0 (mkWidget Image (VBool false) (VStr "image") [] [])
           {[0 := mkWidget Image (VBool false) (VStr "image") [] []]} VUndefined).
  reflexivity.
Defined.

Example border_of_a_widget :
  ∃ h', BaseWidget.border 0 (VRef 0)
          {[0 := mkWidget Color (VBool false) (VStr "color") [] []]}
        = Normal (VRef 0) h'
    ∧ (_props <$> h' !! 0)
      = Some [("border", VObj (<["color" := VFun Color "color"]>
                                 {["width" := VUndefined]}))].
Proof. eexists. by vm_compute. Qed.

(** ** Writing twice, and in another order *)

Lemma Map_set_set (m : JsMap) name v1 v2 :
  Map_set name v2 (Map_set name v1 m) = Map_set name v2 m.
Proof.
  induction m as [|[k v] m IH]; simpl.
  - by rewrite String.eqb_refl.
  - destruct (String.eqb_spec k name) as [->|Hne]; simpl.
    + by rewrite String.eqb_refl.
    + destruct (String.eqb_spec k name); [done|]. by rewrite IH.
Qed.

Lemma invoke_frame this w h param :
  h !! this = Some w →
  invoke this (Method.frame param) h = BaseWidget.frame this param h.
Proof. intros Hw. unfold invoke, read, mbind, Js_bind. by rewrite Hw. Qed.

Lemma chain_cons this m ms h :
  chain (VRef this) (m :: ms) h
  = match invoke this m h with
    | Normal r h' => chain r ms h'
    | Throw e h' => Throw e h'
    end.
Proof. reflexivity. Qed.

(** X7: a second [setProps] of a name leaves no trace of the first: the
    heap is the one the second call alone gives, the attribute's place in
    the store included. *)
Theorem setProps_twice this w h name v1 v2 :
  h !! this = Some w →
  chain (VRef this) [Method.setProps name v1; Method.setProps name v2] h
  = chain (VRef this) [Method.setProps name v2] h.
Proof.
  intros Hw.
  pose proof (chain_setProps this w h [(name, v1); (name, v2)] Hw) as H1.
  pose proof (chain_setProps this w h [(name, v2)] Hw) as H2.
  simpl in H1, H2. rewrite Map_set_set in H1.
  exact (eq_trans H1 (eq_sym H2)).
Qed.

Lemma setProps_twice_opacity :
  chain (VRef 0)
    [Method.setProps "opacity" (VNum 0.25); Method.setProps "opacity" (VNum 0.75)]
    {[0 := mkWidget Image (VBool false) (VStr "image")
             [("blur", VNum 3); ("opacity", VNum 1)] []]}
  = chain (VRef 0) [Method.setProps "opacity" (VNum 0.75)]
      {[0 := mkWidget Image (VBool false) (VStr "image")
               [("blur", VNum 3); ("opacity", VNum 1)] []]}.
Proof.
  apply (setProps_twice 0
           (mkWidget Image (VBool false) (VStr "image")
              [("blur", VNum 3); ("opacity", VNum 1)] [])).
  reflexivity.
Defined.

(** X8: [frame] does not merge: after two calls the stored record is the
    one of the second call, with [undefined] under every name the second
    parameter lacks, whatever the first one set. *)
Theorem frame_twice this w h p1 p2 :
  h !! this = Some w →
  p1 ≠ VNull → p2 ≠ VNull →
  chain (VRef this) [Method.frame p1; Method.frame p2] h
  = chain (VRef this) [Method.frame p2] h.
Proof.
  intros Hw Hp1 Hp2.
  assert (∀ p, p ≠ VNull → destructurable (default_param (VObj ∅) p) = true)
    as Hd by (by intros []).
  destruct (frame_run this w h p1 Hw (Hd _ Hp1)) as (o1 & Hrun1 & _).
  destruct (frame_run this w h p2 Hw (Hd _ Hp2)) as (o2 & Hrun2 & Hdom2 & Hget2).
  set (w1 := with_props (Map_set "frame" (VObj o1) (_props w)) w) in *.
  destruct (frame_run this w1 (<[this := w1]> h) p2 (lookup_insert_eq _ _ _) (Hd _ Hp2))
    as (o2' & Hrun2' & Hdom2' & Hget2').
  assert (o2' = o2) as ->.
  { apply map_eq. intros k. destruct (decide (k ∈ frame_names)) as [Hk|Hk].
    - rewrite Hget2, Hget2' by done. f_equal.
      by apply param_field_insert_props.
    - assert (k ∉ dom o2) as Hk2 by (rewrite Hdom2; by rewrite elem_of_list_to_set).
      assert (k ∉ dom o2') as Hk2' by (rewrite Hdom2'; by rewrite elem_of_list_to_set).
      apply not_elem_of_dom in Hk2, Hk2'. congruence. }
  rewrite !chain_cons, !(invoke_frame this w h) by done.
  rewrite Hrun1, Hrun2. rewrite chain_cons.
  rewrite (invoke_frame this w1) by apply lookup_insert_eq.
  rewrite Hrun2'. simpl. rewrite insert_insert_eq.
  unfold w1, with_props. simpl. by rewrite Map_set_set.
Qed.

Lemma frame_twice_no_merge :
  chain (VRef 0)
    [Method.frame (VObj {["width" := VNum 10]});
     Method.frame (VObj {["height" := VNum 20]})]
    {[0 := mkWidget Text (VBool false) (VStr "text") [] []]}
  = chain (VRef 0) [Method.frame (VObj {["height" := VNum 20]})]
      {[0 := mkWidget Text (VBool false) (VStr "text") [] []]}.
Proof.
  apply (frame_twice 0 (mkWidget Text (VBool false) (VStr "text") [] []));
    first [reflexivity | discriminate].
Defined.

(** One list of children's definitions serves every rewriting of the
    widget that keeps its children. *)
Lemma _getDefinition_insert_all fuel h this w d :
  h !! this = Some w →
  BaseWidget._getDefinition fuel h this = Some d →
  ∃ vs, d = VObj (definition_object w vs)
    ∧ ∀ w', _views w' = _views w →
        BaseWidget._getDefinition fuel (<[this := w']> h) this
        = Some (VObj (definition_object w' vs)).
Proof.
  intros Hw Hd.
  destruct (_getDefinition_least_fuel _ _ _ _ Hd) as (n & Hn & Hnone & Hsome).
  apply _getDefinition_Some in Hsome as (w0 & vs & Hw0 & Hvs & ->).
  assert (w0 = w) as -> by congruence.
  exists vs. split; [done|]. intros w' Hviews.
  apply (_getDefinition_mono (S n)); [lia|].
  apply _getDefinition_Some. exists w', vs.
  rewrite lookup_insert_eq, Hviews. split_and!; [done | | done].
  eapply Forall2_impl; [exact Hvs|]. intros [] v; simpl; auto.
  by apply _getDefinition_insert_other.
Qed.

(** X9: where [ordered] is falsy, what is read under each name of [props]
    does not depend on the order of the calls. In a heap a client reaches,
    after setting [a] then [b] and after setting [b] then [a], the
    [definition] getter gives two objects whose [props] hold the same value
    under every name ([va] under [a] and [vb] under [b]), and whose other
    fields are equal. The attribute store itself keeps the order of the
    calls, and the order in which the names of [props] enumerate follows
    it: of that order nothing is stated. *)
Theorem props_order_insensitive cs this w fuel a b va vb :
  run cs ∅ !! this = Some w →
  truthy (ordered w) = false →
  finite_depth fuel (run cs ∅) this = true →
  a ≠ b →
  ∃ h1 h2 o1 o2 p1 p2,
    chain (VRef this) [Method.setProps a va; Method.setProps b vb] (run cs ∅)
    = Normal (VRef this) h1
    ∧ chain (VRef this) [Method.setProps b vb; Method.setProps a va] (run cs ∅)
      = Normal (VRef this) h2
    ∧ BaseWidget.definition fuel this h1 = Normal (VObj o1) h1
    ∧ BaseWidget.definition fuel this h2 = Normal (VObj o2) h2
    ∧ o1 !! "props" = Some (VObj p1)
    ∧ o2 !! "props" = Some (VObj p2)
    ∧ (∀ k : string, p1 !! k = p2 !! k)
    ∧ p1 !! a = Some va ∧ p1 !! b = Some vb
    ∧ (∀ field : string, field ≠ "props" → o1 !! field = o2 !! field).
Proof.
  intros Hw Hord Hfin Hab. pose proof (run_NoDup _ _ _ Hw) as Hnd.
  pose proof (chain_setProps this w (run cs ∅) [(a, va); (b, vb)] Hw) as Hrun1.
  pose proof (chain_setProps this w (run cs ∅) [(b, vb); (a, va)] Hw) as Hrun2.
  simpl in Hrun1, Hrun2.
  set (m1 := Map_set b vb (Map_set a va (_props w))) in *.
  set (m2 := Map_set a va (Map_set b vb (_props w))) in *.
  apply _getDefinition_total in Hfin as [d Hd].
  destruct (_getDefinition_insert_all fuel _ this w d Hw Hd) as (vs & _ & Hall).
  pose proof (Hall (with_props m1 w) eq_refl) as Hd1.
  pose proof (Hall (with_props m2 w) eq_refl) as Hd2.
  assert (NoDup (Map_keys m1) ∧ NoDup (Map_keys m2)) as [Hnd1 Hnd2]
    by (split; subst m1 m2; by do 2 apply Map_set_NoDup).
  pose proof (definition_object_attributes (with_props m1 w) vs) as Hattr1.
  pose proof (definition_object_attributes (with_props m2 w) vs) as Hattr2.
  simpl in Hattr1, Hattr2. rewrite Hord in Hattr1, Hattr2.
  destruct Hattr1 as [Hattr1 _], Hattr2 as [Hattr2 _].
  exists (<[this := with_props m1 w]> (run cs ∅)),
         (<[this := with_props m2 w]> (run cs ∅)),
         (definition_object (with_props m1 w) vs),
         (definition_object (with_props m2 w) vs),
         (Object_fromEntries m1), (Object_fromEntries m2).
  unfold BaseWidget.definition. rewrite Hd1, Hd2.
  split_and!; [exact Hrun1 | exact Hrun2 | done | done | exact Hattr1 | exact Hattr2
              | | | |].
  - intros k. rewrite !Object_fromEntries_lookup by done. subst m1 m2.
    rewrite !Map_get_set. repeat case_decide; congruence.
  - rewrite Object_fromEntries_lookup by done. subst m1.
    rewrite !Map_get_set. rewrite decide_False by congruence.
    by rewrite decide_True.
  - rewrite Object_fromEntries_lookup by done. subst m1.
    rewrite Map_get_set. by rewrite decide_True.
  - intros field Hfield.
    rewrite (definition_object_other w (with_props m1 w) vs field),
            (definition_object_other w (with_props m2 w) vs field);
      first [done | by rewrite Hord].
Qed.

Lemma props_order_insensitive_color :
  ∃ h1 h2 o1 o2 p1 p2,
    chain (VRef 0)
      [Method.setProps "light" (VStr "#fff"); Method.setProps "dark" (VStr "#000")]
      (run [CNew Color VUndefined] ∅)
    = Normal (VRef 0) h1
    ∧ chain (VRef 0)
        [Method.setProps "dark" (VStr "#000"); Method.setProps "light" (VStr "#fff")]
        (run [CNew Color VUndefined] ∅)
      = Normal (VRef 0) h2
    ∧ BaseWidget.definition 1 0 h1 = Normal (VObj o1) h1
    ∧ BaseWidget.definition 1 0 h2 = Normal (VObj o2) h2
    ∧ o1 !! "props" = Some (VObj p1)
    ∧ o2 !! "props" = Some (VObj p2)
    ∧ (∀ k : string, p1 !! k = p2 !! k)
    ∧ p1 !! "light" = Some (VStr "#fff") ∧ p1 !! "dark" = Some (VStr "#000")
    ∧ (∀ field : string, field ≠ "props" → o1 !! field = o2 !! field).
Proof.
  apply (props_order_insensitive [CNew Color VUndefined] 0
           (mkWidget Color (VBool false) (VStr "color") [] []) 1
           "light" "dark" (VStr "#fff") (VStr "#000"));
    first [reflexivity | discriminate].
Defined.

(** The stores after the two orders of calls are not the same. *)
Example stores_keep_call_order :
  (_props <$> heap_of (chain (VRef 0)
      [Method.setProps "light" (VStr "#fff"); Method.setProps "dark" (VStr "#000")]
      (run [CNew Color VUndefined] ∅)) !! 0)
  = Some [("light", VStr "#fff"); ("dark", VStr "#000")]
  ∧ (_props <$> heap_of (chain (VRef 0)
      [Method.setProps "dark" (VStr "#000"); Method.setProps "light" (VStr "#fff")]
      (run [CNew Color VUndefined] ∅)) !! 0)
    = Some [("dark", VStr "#000"); ("light", VStr "#fff")].
Proof. split; by vm_compute. Qed.

(** ** Cycles *)

Lemma _getDefinition_child n h parent child d :
  BaseWidget._getDefinition (S n) h parent = Some d →
  child_of h parent child →
  is_Some (BaseWidget._getDefinition n h child).
Proof.
  intros Hd (w & Hw & Hin).
  apply _getDefinition_Some in Hd as (w0 & vs & Hw0 & Hvs & _).
  assert (w0 = w) as -> by congruence.
  apply list_elem_of_lookup in Hin as [i Hi].
  destruct (Forall2_lookup_l _ _ _ _ _ Hvs Hi) as (v & _ & Hv).
  by exists v.
Qed.

Lemma _getDefinition_descendant h a b :
  tc (child_of h) a b →
  ∀ n d, BaseWidget._getDefinition (S n) h a = Some d →
         is_Some (BaseWidget._getDefinition n h b).
Proof.
  induction 1 as [a b Hab|a c b Hac _ IH]; intros n d Hd.
  - by eapply _getDefinition_child.
  - destruct (_getDefinition_child _ _ _ _ _ Hd Hac) as [dc Hdc].
    destruct n as [|n]; [done|].
    destruct (IH _ _ Hdc) as [db Hdb].
    exists db. by apply _getDefinition_S_fuel.
Qed.

(** X10: a widget that is among its own descendants has no definition:
    the recursion of [_getDefinition] does not end, and reading
    [definition] throws a [RangeError] (the call stack runs out), whatever
    the depth allowed. *)
Theorem cyclic_widget_has_no_definition h view fuel :
  tc (child_of h) view view →
  BaseWidget.definition fuel view h = Throw RangeError h.
Proof.
  intros Hcycle. unfold BaseWidget.definition.
  destruct (BaseWidget._getDefinition fuel h view) as [d|] eqn:Hd; [|done].
  destruct (_getDefinition_least_fuel _ _ _ _ Hd) as (n & _ & Hnone & Hsome).
  destruct (_getDefinition_descendant h view view Hcycle n d Hsome) as [d' Hd'].
  congruence.
Qed.

Lemma cyclic_widget_has_no_definition_self :
  BaseWidget.definition 100 0
    {[0 := mkWidget Zstack (VBool false) (VStr "zstack") [] [VStr "a"; VRef 0]]}
  = Throw RangeError
      {[0 := mkWidget Zstack (VBool false) (VStr "zstack") [] [VStr "a"; VRef 0]]}.
Proof.
  apply (cyclic_widget_has_no_definition
           {[0 := mkWidget Zstack (VBool false) (VStr "zstack") [] [VStr "a"; VRef 0]]}
           0 100).
  apply tc_once.
  exists (mkWidget Zstack (VBool false) (VStr "zstack") [] [VStr "a"; VRef 0]).
  split; [reflexivity|]. simpl. apply list_elem_of_further, list_elem_of_here.
Defined.

(** ** The shape of a definition *)

Lemma _getDefinition_VObj fuel h view d :
  BaseWidget._getDefinition fuel h view = Some d → ∃ o, d = VObj o.
Proof.
  destruct fuel as [|fuel]; [done|]. intros Hd.
  apply _getDefinition_Some in Hd as (w & vs & _ & _ & ->). eauto.
Qed.

(** X11: a definition is an object with the fields [type], one of
    [modifiers] and [props], and [views] when the widget has children: it
    has no other field. *)
Theorem definition_fields fuel h view w d :
  h !! view = Some w →
  BaseWidget._getDefinition fuel h view = Some d →
  ∃ o, d = VObj o
    ∧ dom o = ({["type"]} : gset string)
              ∪ (if truthy (ordered w) then {["modifiers"]} else {["props"]})
              ∪ (if bool_decide (_views w = []) then ∅ else {["views"]}).
Proof.
  intros Hw Hd. destruct fuel as [|fuel]; [done|].
  apply _getDefinition_Some in Hd as (w0 & vs & Hw0 & _ & ->).
  assert (w0 = w) as -> by congruence.
  exists (definition_object w vs). split; [done|].
  unfold definition_object, BaseWidget.views.
  destruct (truthy (ordered w)), (_views w) as [|c cs]; simpl;
    rewrite ?dom_insert_L, dom_empty_L;
    apply set_eq; intros x;
    rewrite ?elem_of_union, ?elem_of_singleton, ?elem_of_empty; tauto.
Qed.

Lemma definition_fields_zstack :
  ∃ o, VObj (<["type" := VStr "zstack"]> (<["props" := VObj ∅]>
         {["views" := VArr [VObj (<["type" := VStr "text"]>
                              {["props" := VObj {["text" := VStr "hi"]}]});
                            VStr "raw"] ]})) = VObj o
    ∧ dom o = ({["type"]} : gset string) ∪ {["props"]} ∪ {["views"]}.
Proof.
  apply (definition_fields 2 zstack_heap 1
           (mkWidget Zstack (VBool false) (VStr "zstack") [] [VRef 0; VStr "raw"]));
    reflexivity.
Defined.

(** X12: the children's definitions can stand for the children. When the
    [views] of a widget's definition are made its children, as a caller
    does who attaches [child.definition] and not [child], the widget has
    the same definition, and [_getDefinition] computes it without
    descending. *)
Theorem definition_views_as_children fuel h view w o vs :
  h !! view = Some w →
  BaseWidget._getDefinition fuel h view = Some (VObj o) →
  o !! "views" = Some (VArr vs) →
  BaseWidget._getDefinition 1 (<[view := with_views vs w]> h) view = Some (VObj o).
Proof.
  intros Hw Hd Hviews. destruct fuel as [|fuel]; [done|].
  apply _getDefinition_Some in Hd as (w0 & vs0 & Hw0 & Hvs & Ho).
  assert (w0 = w) as -> by congruence.
  apply VObj_inj in Ho. subst o.
  rewrite definition_object_views in Hviews.
  case_bool_decide as Hlen; [|done].
  apply (inj Some), VArr_inj in Hviews. subst vs0.
  apply _getDefinition_Some. exists (with_views vs w), vs.
  rewrite lookup_insert_eq. split_and!; [done | |].
  - simpl. clear -Hvs. induction Hvs as [|c v cs vs Hc _ IH]; constructor; [|done].
    destruct c; simpl in Hc; try (by injection Hc as <-).
    apply _getDefinition_VObj in Hc as [? ->]. done.
  - f_equal. unfold definition_object, BaseWidget.views, BaseWidget.props,
      BaseWidget.modifiers. simpl.
    apply Forall2_length in Hvs. rewrite <- Hvs. done.
Qed.

Lemma definition_views_as_children_zstack :
  BaseWidget._getDefinition 1
    (<[1 := with_views
              [VObj (<["type" := VStr "text"]>
                       {["props" := VObj {["text" := VStr "hi"]}]});
               VStr "raw"]
              (mkWidget Zstack (VBool false) (VStr "zstack") [] [VRef 0; VStr "raw"])]>
       zstack_heap) 1
  = Some (VObj (<["type" := VStr "zstack"]> (<["props" := VObj ∅]>
      {["views" := VArr [VObj (<["type" := VStr "text"]>
                           {["props" := VObj {["text" := VStr "hi"]}]});
                         VStr "raw"] ]}))).
Proof.
  apply (definition_views_as_children 2 zstack_heap 1
           (mkWidget Zstack (VBool false) (VStr "zstack") [] [VRef 0; VStr "raw"]));
    reflexivity.
Defined.

(** ** The two encodings *)

Lemma Map_get_elem (m : JsMap) k v :
  NoDup (Map_keys m) → Map_get k m = Some v ↔ (k, v) ∈ m.
Proof.
  intros Hnd. split; [apply Map_get_Some_elem|].
  unfold Map_keys in Hnd. induction m as [|[k' v'] m IH]; simpl.
  - by intros ?%elem_of_nil.
  - simpl in Hnd. apply NoDup_cons in Hnd as [Hnotin Hnd].
    intros [[= -> ->]|Hin]%elem_of_cons.
    + by rewrite String.eqb_refl.
    + destruct (String.eqb_spec k' k) as [->|Hne]; [|by apply IH].
      exfalso. apply Hnotin. apply list_elem_of_fmap. by exists (k, v).
Qed.

Lemma Object_fromEntries_list_to_map (m : JsMap) :
  NoDup (Map_keys m) → Object_fromEntries m = list_to_map m.
Proof.
  intros Hnd. apply map_eq. intros k. apply option_eq. intros v.
  rewrite Object_fromEntries_lookup by done.
  rewrite <- elem_of_list_to_map by done. by apply Map_get_elem.
Qed.

(** X13: [props] and [modifiers] carry the same attributes. In a heap a
    client reaches, [modifiers] has as many records as [props] has names,
    and [{k: v}] is one of the records exactly when [props] has [v]
    under [k]. *)
Theorem props_modifiers_agree cs l w :
  run cs ∅ !! l = Some w →
  ∃ p ms,
    BaseWidget.props w = VObj p
    ∧ BaseWidget.modifiers w = VArr ms
    ∧ length ms = size p
    ∧ ∀ k v, p !! k = Some v ↔ VObj {[k := v]} ∈ ms.
Proof.
  intros Hw. pose proof (run_NoDup _ _ _ Hw) as Hnd.
  eexists _, _. split_and!; [reflexivity | reflexivity | |].
  - unfold Map_entries. rewrite length_map.
    rewrite Object_fromEntries_list_to_map by done.
    by rewrite map_size_list_to_map.
  - intros k v. unfold Map_entries.
    rewrite Object_fromEntries_lookup, Map_get_elem by done.
    rewrite list_elem_of_fmap. split.
    + intros Hin. exists (k, v). by rewrite Object_fromEntries_singleton.
    + intros ([k' v'] & Heq & Hin). rewrite Object_fromEntries_singleton in Heq.
      simpl in Heq. apply VObj_inj in Heq.
      assert (k' = k) as ->.
      { apply (f_equal dom) in Heq. rewrite !dom_singleton_L in Heq.
        by apply (inj singleton) in Heq. }
      apply (f_equal (lookup k)) in Heq. rewrite !lookup_singleton_eq in Heq.
      by injection Heq as ->.
Qed.

Lemma props_modifiers_agree_text :
  ∃ p ms,
    VObj (<["bold" := VBool true]> {["text" := VStr "hi"]}) = VObj p
    ∧ VArr [VObj {["text" := VStr "hi"]}; VObj {["bold" := VBool true]}] = VArr ms
    ∧ length ms = size p
    ∧ ∀ k v, p !! k = Some v ↔ VObj {[k := v]} ∈ ms.
Proof.
  apply (props_modifiers_agree
           [CNew Text VUndefined; CDo 0 (OCall (Method.text (VStr "hi")));
            CDo 0 (OCall (Method.bold VUndefined))] 0
           (mkWidget Text (VBool false) (VStr "text")
              [("text", VStr "hi"); ("bold", VBool true)] [])).
  reflexivity.
Defined.

(** ** Construction *)

(** X14: in a heap a client reaches, the [type] of each widget is the tag
    its class's constructor sets ([undefined] for [BaseWidget] itself), and
    this is the [type] field of its definition. *)
Theorem type_is_class_tag cs l w :
  run cs ∅ !! l = Some w →
  type w = class_type (cls w)
  ∧ ∀ fuel o, BaseWidget._getDefinition fuel (run cs ∅) l = Some (VObj o) →
      o !! "type" = Some (class_type (cls w)).
Proof.
  intros Hw.
  assert (type w = class_type (cls w)) as Htype.
  { revert l w Hw. apply (run_invariant (λ w, type w = class_type (cls w))).
    - done.
    - intros w0 w' Hw0 -> _ ->. done. }
  split; [done|]. intros fuel o Hd. destruct fuel as [|fuel]; [done|].
  apply _getDefinition_Some in Hd as (w0 & vs & Hw0 & _ & Ho).
  assert (w0 = w) as -> by congruence.
  apply VObj_inj in Ho. subst o. by rewrite definition_object_type, Htype.
Qed.

Lemma type_is_class_tag_vgrid :
  VStr "vgrid" = VStr "vgrid"
  ∧ ∀ fuel o,
      BaseWidget._getDefinition fuel
        (run [CNew Vgrid VUndefined; CDo 0 (OCall (Method.columns (VArr [])))] ∅) 0
      = Some (VObj o) →
      o !! "type" = Some (VStr "vgrid").
Proof.
  apply (type_is_class_tag
           [CNew Vgrid VUndefined; CDo 0 (OCall (Method.columns (VArr [])))] 0
           (mkWidget Vgrid (VBool false) (VStr "vgrid") [("columns", VArr [])] [])).
  reflexivity.
Defined.

(** X15: a constructor allocates the widget where there was none, leaves
    the widgets of the heap as they are, and gives a widget whose
    definition has the class's tag as [type], the empty encoding of its
    mode and no [views]. Only [BaseWidget]'s own constructor reads its
    argument: the exported classes construct with [ordered = false]. *)
Theorem new_widget c arg h :
  ∃ this h',
    new c arg h = Normal this h'
    ∧ h !! this = None
    ∧ (∀ l, l ≠ this → h' !! l = h !! l)
    ∧ BaseWidget._getDefinition 1 h' this
      = Some (VObj (<["type" := class_type c]>
           (if truthy (if c is BaseWidget
                       then default_param (VBool false) arg else VBool false)
            then {["modifiers" := VArr []]}
            else {["props" := VObj ∅]}))).
Proof.
  eexists _, _. split_and!; [apply new_run | apply fresh_unallocated | |].
  - intros l Hne. by rewrite lookup_insert_ne.
  - rewrite _getDefinition_S, lookup_insert_eq. simpl. do 2 f_equal.
    unfold definition_object. simpl.
    destruct (truthy _); apply map_eq; intros k;
      rewrite !lookup_insert; repeat case_decide; subst; try done;
      by rewrite ?lookup_insert_ne, ?lookup_singleton_ne by done.
Qed.

(** ** When a call throws *)

(** The methods a class has are those its body and [BaseWidget]'s declare. *)
Lemma bool_decide_elem_of_existsb (l : list string) k :
  bool_decide (k ∈ l) = existsb (String.eqb k) l.
Proof.
  induction l as [|k' l IH]; cbn [existsb].
  - apply bool_decide_eq_false, not_elem_of_nil.
  - rewrite <- IH. destruct (String.eqb_spec k k') as [->|Hne]; cbn [orb].
    + apply bool_decide_eq_true, list_elem_of_here.
    + apply bool_decide_ext. rewrite elem_of_cons. split; [by intros [?|?] | by right].
Qed.

Lemma method_owner_existsb c k :
  method_owner c k
  = if existsb (String.eqb k) (own_methods c) then Some c
    else if existsb (String.eqb k) (own_methods BaseWidget) then Some BaseWidget
    else None.
Proof. unfold method_owner. by rewrite !bool_decide_elem_of_existsb. Qed.

Lemma resolve_method_owner c m :
  resolve c m = None ↔ method_owner c (method_name m) = None.
Proof.
  rewrite method_owner_existsb.
  destruct m, c; cbn; split; intros Heq; first [done | discriminate Heq].
Qed.

Section throws.
Context (this : nat) (w : Widget) (h : Heap) (Hthis : h !! this = Some w).

Lemma setter_never_throws name value r0 e h' :
  ((BaseWidget._setProps this name value;; mret r0) : Js Value) h ≠ Throw e h'.
Proof using Hthis. by rewrite (setter_run _ _ _ Hthis). Qed.

Lemma resolved_throws m f e h' :
  resolve (cls w) m = Some f →
  f this h = Throw e h' →
  m = Method.frame VNull ∨ m = Method.border VUndefined ∨ m = Method.border VNull.
Proof using Hthis.
  intros Hf.
  destruct m; simpl in Hf;
    try (injection Hf as <-; intros Hrun; exfalso;
         first [ by eapply setter_never_throws
               | by rewrite (setViews_run _ _ _ Hthis) in Hrun ]);
    try (destruct (cls w); try done; injection Hf as <-; intros Hrun; exfalso;
         by eapply setter_never_throws).
  - injection Hf as <-. unfold BaseWidget.frame.
    destruct param; simpl; auto; intros Hrun; exfalso;
      unfold mbind at 1 in Hrun; unfold Js_bind at 1 in Hrun;
      by eapply setter_never_throws.
  - injection Hf as <-. unfold BaseWidget.border.
    destruct param; simpl; auto; intros Hrun; exfalso;
      unfold mbind at 1 in Hrun; unfold Js_bind at 1 in Hrun;
      by eapply setter_never_throws.
  - injection Hf as <-. unfold BaseWidget.clipped. intros Hrun. exfalso.
    destruct (truthy antialiased); cbn [negb] in Hrun;
      exact (setter_never_throws _ _ _ _ _ Hrun).
Qed.

End throws.

(** X16: for the documented methods, those of [Method.t] ([setViews],
    [setProps] and the attribute setters of the classes), a call on a
    widget throws exactly when the widget's class neither declares nor
    inherits a method of that name, or the call is [frame(null)],
    [border(null)] or [border()]; every other such call returns. The
    setters of one exported class are not there on another. Nothing is
    said of calls to the helpers [_setProps] and [_getDefinition]. *)
Theorem invoke_throws_iff this w h m :
  h !! this = Some w →
  (∃ e h', invoke this m h = Throw e h')
  ↔ method_owner (cls w) (method_name m) = None
    ∨ m = Method.frame VNull ∨ m = Method.border VUndefined
    ∨ m = Method.border VNull.
Proof.
  intros Hw. unfold invoke, read, mbind, Js_bind. rewrite Hw.
  destruct (resolve (cls w) m) as [f|] eqn:Hf.
  - split.
    + intros (e & h' & Hrun). right. by eapply resolved_throws.
    + intros [Hnone|Hm].
      * apply resolve_method_owner in Hnone. congruence.
      * destruct Hm as [-> | [-> | ->] ]; injection Hf as <-;
          by exists TypeError, h.
  - split; [|by exists TypeError, h].
    intros _. left. by apply resolve_method_owner.
Qed.

Lemma invoke_throws_iff_bold_on_image :
  (∃ e h', invoke 0 (Method.bold VUndefined)
             {[0 := mkWidget Image (VBool false) (VStr "image") [] []]}
           = Throw e h')
  ↔ method_owner Image "bold" = None
    ∨ Method.bold VUndefined = Method.frame VNull
    ∨ Method.bold VUndefined = Method.border VUndefined
    ∨ Method.bold VUndefined = Method.border VNull.
Proof.
  apply (invoke_throws_iff 0 (mkWidget Image (VBool false) (VStr "image") [] [])).
  reflexivity.
Defined.

Example bold_on_image_throws :
  invoke 0 (Method.bold VUndefined)
    {[0 := mkWidget Image (VBool false) (VStr "image") [] []]}
  = Throw TypeError {[0 := mkWidget Image (VBool false) (VStr "image") [] []]}.
Proof. reflexivity. Qed.

(** ** Children *)

(** X17: [setViews(arr)] returns the widget and replaces its children by
    [arr], whatever they were: [views] then reads [arr]. It is the
    assignment [views = arr], and it leaves the attributes as they are. *)
Theorem setViews_replaces this w h arr :
  h !! this = Some w →
  ∃ h',
    invoke this (Method.setViews arr) h = Normal (VRef this) h'
    ∧ heap_of (perform this (OSetViews arr) h) = h'
    ∧ perform this OGetViews h' = Normal (VArr arr) h'
    ∧ perform this OGetProps h' = Normal (BaseWidget.props w) h'.
Proof.
  intros Hw. exists (<[this := with_views arr w]> h). split_and!.
  - unfold invoke, read, mbind, Js_bind. rewrite Hw. simpl.
    by apply setViews_run.
  - simpl. unfold BaseWidget.set_views, modify, mbind, Js_bind. by rewrite Hw.
  - simpl. unfold read, mbind, Js_bind. by rewrite lookup_insert_eq.
  - simpl. unfold read, mbind, Js_bind. by rewrite lookup_insert_eq.
Qed.

Lemma setViews_replaces_zstack :
  ∃ h',
    invoke 1 (Method.setViews []) zstack_heap = Normal (VRef 1) h'
    ∧ heap_of (perform 1 (OSetViews []) zstack_heap) = h'
    ∧ perform 1 OGetViews h' = Normal (VArr []) h'
    ∧ perform 1 OGetProps h' = Normal (VObj ∅) h'.
Proof.
  apply (setViews_replaces 1
           (mkWidget Zstack (VBool false) (VStr "zstack") [] [VRef 0; VStr "raw"])
           zstack_heap []).
  reflexivity.
Defined.

(** X18: attributes and children are set independently: a method call
    that stores an attribute and [setViews] give the same heap in either
    order. *)
Theorem setViews_commutes this w h name value arr :
  h !! this = Some w →
  chain (VRef this) [Method.setProps name value; Method.setViews arr] h
  = chain (VRef this) [Method.setViews arr; Method.setProps name value] h.
Proof.
  intros Hw. rewrite !chain_cons.
  rewrite (invoke_setProps this w h) by done.
  assert (∀ w0 h0, h0 !! this = Some w0 →
            invoke this (Method.setViews arr) h0
            = Normal (VRef this) (<[this := with_views arr w0]> h0)) as Hset.
  { intros w0 h0 Hw0. unfold invoke, read, mbind, Js_bind. rewrite Hw0. simpl.
    by apply setViews_run. }
  rewrite (Hset w h Hw). rewrite !chain_cons.
  rewrite (Hset _ _ (lookup_insert_eq _ _ _)).
  rewrite (invoke_setProps this _ _ name value (lookup_insert_eq _ _ _)).
  simpl. by rewrite !insert_insert_eq.
Qed.

Lemma setViews_commutes_hstack :
  chain (VRef 0) [Method.setProps "spacing" (VNum 4); Method.setViews [VStr "a"]]
    {[0 := mkWidget Hstack (VBool false) (VStr "hstack") [] []]}
  = chain (VRef 0) [Method.setViews [VStr "a"]; Method.setProps "spacing" (VNum 4)]
      {[0 := mkWidget Hstack (VBool false) (VStr "hstack") [] []]}.
Proof.
  apply (setViews_commutes 0 (mkWidget Hstack (VBool false) (VStr "hstack") [] [])).
  reflexivity.
Defined.

(** ** Where the order shows, and what a change reaches *)

(** X19: where [ordered] is truthy the order of the calls shows: setting
    two new names [a] then [b], or [b] then [a], gives two different
    definitions. *)
Theorem modifiers_order_sensitive fuel h this w a b va vb :
  h !! this = Some w →
  truthy (ordered w) = true →
  finite_depth fuel h this = true →
  a ∉ Map_keys (_props w) → b ∉ Map_keys (_props w) → a ≠ b →
  ∃ h1 h2 d1 d2,
    chain (VRef this) [Method.setProps a va; Method.setProps b vb] h
    = Normal (VRef this) h1
    ∧ chain (VRef this) [Method.setProps b vb; Method.setProps a va] h
      = Normal (VRef this) h2
    ∧ BaseWidget._getDefinition fuel h1 this = Some d1
    ∧ BaseWidget._getDefinition fuel h2 this = Some d2
    ∧ d1 ≠ d2.
Proof.
  intros Hw Hord Hfin Ha Hb Hab.
  assert (∀ x y vx vy, x ∉ Map_keys (_props w) → y ∉ Map_keys (_props w) → x ≠ y →
            Map_set y vy (Map_set x vx (_props w)) = _props w ++ [(x, vx); (y, vy)])
    as Hstore.
  { intros x y vx vy Hx Hy Hxy. rewrite (Map_set_snoc _ x) by done.
    rewrite Map_set_snoc; [by rewrite <- app_assoc|].
    unfold Map_keys. rewrite fmap_app. simpl.
    intros [?|Hin]%elem_of_app; [done|].
    apply list_elem_of_singleton in Hin. congruence. }
  pose proof (chain_setProps this w h [(a, va); (b, vb)] Hw) as Hrun1.
  pose proof (chain_setProps this w h [(b, vb); (a, va)] Hw) as Hrun2.
  simpl in Hrun1, Hrun2. rewrite Hstore in Hrun1, Hrun2 by done.
  apply _getDefinition_total in Hfin as [d Hd].
  destruct (_getDefinition_insert_all fuel _ this w d Hw Hd) as (vs & _ & Hall).
  eexists _, _, _, _.
  split_and!; [exact Hrun1 | exact Hrun2 | by apply Hall | by apply Hall |].
  intros Heq. apply VObj_inj in Heq.
  apply (f_equal (lookup "modifiers")) in Heq.
  pose proof (definition_object_attributes
                (with_props (_props w ++ [(a, va); (b, vb)]) w) vs) as H1.
  pose proof (definition_object_attributes
                (with_props (_props w ++ [(b, vb); (a, va)]) w) vs) as H2.
  simpl in H1, H2. rewrite Hord in H1, H2.
  destruct H1 as [H1 _], H2 as [H2 _]. rewrite H1, H2 in Heq.
  rewrite !modifiers_with_props in Heq.
  apply (inj Some), VArr_inj in Heq.
  rewrite !map_app in Heq. apply app_inv_head in Heq. simpl in Heq.
  apply (f_equal head) in Heq. simpl in Heq.
  apply (inj Some), VObj_inj in Heq.
  apply (f_equal dom) in Heq. rewrite !dom_singleton_L in Heq.
  by apply (inj singleton) in Heq.
Qed.

Lemma modifiers_order_sensitive_new :
  ∃ h1 h2 d1 d2,
    chain (VRef 0)
      [Method.setProps "opacity" (VNum 0.5); Method.setProps "blur" (VNum 3)]
      {[0 := mkWidget BaseWidget (VBool true) VUndefined [] []]}
    = Normal (VRef 0) h1
    ∧ chain (VRef 0)
        [Method.setProps "blur" (VNum 3); Method.setProps "opacity" (VNum 0.5)]
        {[0 := mkWidget BaseWidget (VBool true) VUndefined [] []]}
      = Normal (VRef 0) h2
    ∧ BaseWidget._getDefinition 1 h1 0 = Some d1
    ∧ BaseWidget._getDefinition 1 h2 0 = Some d2
    ∧ d1 ≠ d2.
Proof.
  apply (modifiers_order_sensitive 1
           {[0 := mkWidget BaseWidget (VBool true) VUndefined [] []]} 0
           (mkWidget BaseWidget (VBool true) VUndefined [] [])
           "opacity" "blur" (VNum 0.5) (VNum 3));
    first [reflexivity | apply not_elem_of_nil | discriminate].
Defined.

Lemma mapM_ext_in {A B} (f g : A → option B) (l : list A) :
  (∀ x, x ∈ l → f x = g x) → mapM f l = mapM g l.
Proof.
  induction l as [|x l IH]; intros Hfg; [done|]. simpl.
  rewrite (Hfg x) by apply list_elem_of_here.
  rewrite IH; [done|]. intros y Hy. apply Hfg. by apply list_elem_of_further.
Qed.

Lemma _getDefinition_insert_unreachable fuel h this w' view :
  ¬ rtc (child_of h) view this →
  BaseWidget._getDefinition fuel (<[this := w']> h) view
  = BaseWidget._getDefinition fuel h view.
Proof.
  revert view. induction fuel as [|fuel IH]; intros view Hunreach; [done|].
  assert (view ≠ this) as Hne by (intros ->; by apply Hunreach).
  rewrite !_getDefinition_S, lookup_insert_ne by done.
  destruct (h !! view) as [w|] eqn:Hw; [|done]. simpl.
  rewrite (mapM_ext_in (child_definition fuel (<[this := w']> h))
             (child_definition fuel h)); [done|].
  intros [] Hin; simpl; try done.
  apply IH. intros Hreach. apply Hunreach.
  eapply rtc_l; [|exact Hreach]. by exists w.
Qed.

(** X20: a change reaches the definitions of the widget and of its
    ancestors only: an operation on [this] leaves the definition of every
    widget from which [this] is not reached through children as it is. *)
Theorem perform_unreachable fuel h this op view :
  ¬ rtc (child_of h) view this →
  BaseWidget._getDefinition fuel (heap_of (perform this op h)) view
  = BaseWidget._getDefinition fuel h view.
Proof.
  intros Hunreach.
  destruct (perform_effect this op h)
    as [->|(w0 & w' & Hw0 & -> & _)]; [done|].
  by apply _getDefinition_insert_unreachable.
Qed.

Lemma perform_unreachable_child :
  BaseWidget._getDefinition 1
    (heap_of (perform 1 (OCall (Method.alignment (VNum 1))) zstack_heap)) 0
  = BaseWidget._getDefinition 1 zstack_heap 0.
Proof.
  apply (perform_unreachable 1 zstack_heap 1 (OCall (Method.alignment (VNum 1))) 0).
  intros Hreach. inversion Hreach as [|x y z Hxy Hyz].
  destruct Hxy as (w & Hw & Hin). vm_compute in Hw. injection Hw as <-.
  simpl in Hin. by apply elem_of_nil in Hin.
Defined.
